(** * Host-state checks of distributive: packages.go and systemctl.go

    A shallow embedding of the package, repository and systemd checks.
    Go strings are byte strings ([string] of the Standard Library), exit
    codes are [Z], slices are lists.  A check reads the host (files,
    processes) and can end in three ways: it returns its pair
    [(exitCode, exitMessage)], it stops the process through [log.Fatal],
    or it panics on an index or a slice bound out of range. *)

From Stdlib Require Import String Ascii List Bool ZArith Lia Arith.
Import ListNotations.

Local Open Scope string_scope.
Local Open Scope list_scope.

Infix "+++" := String.append (right associativity, at level 60).

(** ** Results of a check *)

Inductive Outcome (A : Type) : Type :=
| Ret (a : A)
| Fatal (diagnostic : string)
| Panic (reason : string).

Arguments Ret {A} a.
Arguments Fatal {A} diagnostic.
Arguments Panic {A} reason.

Definition bind {A B : Type} (m : Outcome A) (f : A -> Outcome B) : Outcome B :=
  match m with
  | Ret a => f a
  | Fatal d => Fatal d
  | Panic r => Panic r
  end.

Notation "x <- m ;; k" := (bind m (fun x => k))
  (at level 61, m at next level, right associativity).

(** ** Bytes and strings of the Go runtime *)

Definition LF : ascii := "010"%char.
Definition TAB : ascii := "009"%char.
Definition NL : string := String LF "".
Definition NLTAB : string := String LF (String TAB "").

(** [strings.Contains s substr]. *)
Fixpoint Contains (s substr : string) : bool :=
  if String.prefix substr s then true
  else match s with
       | "" => false
       | String _ s' => Contains s' substr
       end.

(** [strings.TrimPrefix s prefix]. *)
Definition TrimPrefix (s prefix : string) : string :=
  if String.prefix prefix s
  then String.substring (String.length prefix) (String.length s - String.length prefix) s
  else s.

(** [strings.Split s sep] for a one-byte separator: the pieces between the
    separators, empty pieces kept. *)
Fixpoint SplitAcc (sep : ascii) (cur s : string) : list string :=
  match s with
  | "" => [cur]
  | String c s' =>
      if Ascii.eqb c sep then cur :: SplitAcc sep "" s'
      else SplitAcc sep (cur +++ String c "") s'
  end.

Definition Split (s : string) (sep : ascii) : list string := SplitAcc sep "" s.

(** [fmt.Sprint] of a [[]string]: the elements between brackets, separated
    by one space. *)
Fixpoint joinSpace (l : list string) : string :=
  match l with
  | [] => ""
  | [x] => x
  | x :: rest => x +++ " " +++ joinSpace rest
  end.

Definition Sprint (l : list string) : string := "[" +++ joinSpace l +++ "]".

(** Indexing [l[i]] and slicing [l[:n]] with their bound checks.  Go lets
    the high bound of a slice go up to the capacity; the two files never
    cut a slice above its length, and a bound above it counts as out of
    range here. *)
Definition index {A : Type} (l : list A) (i : nat) : Outcome A :=
  match nth_error l i with
  | Some x => Ret x
  | None => Panic "index out of range"
  end.

Definition sliceTo {A : Type} (l : list A) (n : Z) : Outcome (list A) :=
  if (n <? 0)%Z || (Z.of_nat (List.length l) <? n)%Z
  then Panic "slice bounds out of range"
  else Ret (firstn (Z.to_nat n) l).

(** [l[n:]]: the low bound must not pass the length. *)
Definition sliceFrom {A : Type} (l : list A) (n : nat) : Outcome (list A) :=
  if Nat.ltb (List.length l) n then Panic "slice bounds out of range"
  else Ret (skipn n l).

(** ** The regular expressions of the two files

    Every pattern of the source is a sequence of one-byte classes, each
    taken once, one or more times, or zero or more times.  Repetition is
    greedy and gives back bytes when the rest of the pattern fails, which
    is the leftmost-first match of Go's regexp on such patterns.  Classes
    are read on bytes, as Go reads them on ASCII text. *)

Inductive atom : Type :=
| One (p : ascii -> bool)
| Plus (p : ascii -> bool)
| Star (p : ascii -> bool).

Fixpoint matchStar (p : ascii -> bool) (k : string -> option nat) (s : string)
  : option nat :=
  match s with
  | "" => k s
  | String c s' =>
      if p c then
        match matchStar p k s' with
        | Some n => Some (S n)
        | None => k s
        end
      else k s
  end.

Definition matchPlus (p : ascii -> bool) (k : string -> option nat) (s : string)
  : option nat :=
  match s with
  | "" => None
  | String c s' => if p c then option_map S (matchStar p k s') else None
  end.

(** Length of the match of [re] at the start of [s]. *)
Fixpoint matchAt (re : list atom) : string -> option nat :=
  match re with
  | [] => fun _ => Some 0
  | One p :: re' =>
      fun s => match s with
               | "" => None
               | String c s' => if p c then option_map S (matchAt re' s') else None
               end
  | Plus p :: re' => matchPlus p (matchAt re')
  | Star p :: re' => matchStar p (matchAt re')
  end.

(** [re.FindString]: the leftmost match, [""] when there is none. *)
Fixpoint FindString (re : list atom) (s : string) : string :=
  match matchAt re s with
  | Some n => String.substring 0 n s
  | None => match s with
            | "" => ""
            | String _ s' => FindString re s'
            end
  end.

(** [re.FindAllString s (-1)] for a pattern that matches no empty string:
    the successive matches, none overlapping; [skip] counts the bytes of
    the last match still to pass. *)
Fixpoint FindAllFrom (re : list atom) (skip : nat) (s : string) : list string :=
  match s with
  | "" => []
  | String _ s' =>
      match skip with
      | S k => FindAllFrom re k s'
      | O => match matchAt re s with
             | Some (S n) => String.substring 0 (S n) s :: FindAllFrom re n s'
             | _ => FindAllFrom re 0 s'
             end
      end
  end.

Definition FindAllString (re : list atom) (s : string) : list string :=
  FindAllFrom re 0 s.

(** Classes: [\s] is [[\t\n\f\r ]], [.] is any byte but the line feed,
    [\w] is [[0-9A-Za-z_]]. *)
Definition isSpace (c : ascii) : bool :=
  let n := nat_of_ascii c in
  Nat.eqb n 9 || Nat.eqb n 10 || Nat.eqb n 12 || Nat.eqb n 13 || Nat.eqb n 32.

Definition isDot (c : ascii) : bool := negb (Ascii.eqb c LF).

Definition isWord (c : ascii) : bool :=
  let n := nat_of_ascii c in
  (Nat.leb 48 n && Nat.leb n 57) || (Nat.leb 65 n && Nat.leb n 90)
  || (Nat.leb 97 n && Nat.leb n 122) || Nat.eqb n 95.

Definition lit (s : string) : list atom :=
  map (fun c => One (Ascii.eqb c)) (list_ascii_of_string s).

(** [^\s*#.*]; the anchor [^] is carried by [MatchString], which tries the
    start of the text only. *)
Definition commentRegex : list atom := [Star isSpace] ++ lit "#" ++ [Star isDot].

Definition MatchString (re : list atom) (s : string) : bool :=
  match matchAt re s with Some _ => true | None => false end.

(** [regexp.MustCompile("\\s+").Split(s, -1)]: the pieces between the
    maximal runs of white space; a run at either end of [s] leaves an empty
    piece there, and the empty string gives one empty piece. *)
Fixpoint SplitRuns (inRun : bool) (cur s : string) : list string :=
  match s with
  | "" => [cur]
  | String c s' =>
      if isSpace c then
        if inRun then SplitRuns true cur s' else cur :: SplitRuns true "" s'
      else SplitRuns false (cur +++ String c "") s'
  end.

Definition whitespaceSplit (s : string) : list string := SplitRuns false "" s.

(** ** The host and the helpers kept outside the two files

    The process runner, the file readers and the column reader are the
    collaborators of the checks.  A command is its argument vector. *)

Record Env : Type := {
  (** error of [exec.Command(argv...).Start()], [None] for [nil] *)
  exec_Start : list string -> option string;
  (** bytes of [exec.Command(argv...).Output()], its error dropped *)
  exec_Output : list string -> string;
  (** [exec.Command(argv...).CombinedOutput()] *)
  exec_CombinedOutput : list string -> string * option string;
  (** whether [url.Parse] returns a [nil] error *)
  url_Parse : string -> bool;
  fileToString : string -> string;
  fileToLines : string -> list string;
  stringToSlice : string -> list (list string);
  commandColumnNoHeader : nat -> list string -> list string
}.

Definition Thunk : Type := Env -> Outcome (Z * string).

(** Modelled from the spec: [strIn] is not in the two files; the catalog
    calls its use exact membership of the target in the candidates. *)
Definition strIn (s : string) (slice : list string) : bool :=
  existsb (String.eqb s) slice.

(** Modelled from the spec: [genericError] is not in the two files; the
    mismatch reporter returns code 1 and the label, the expected value and
    the candidates in the fixed shape
    [<label>\n\tExpected: <expected>\n\tCandidates: <candidates>], the
    candidates printed as [fmt.Sprint] prints a slice of strings. *)
Definition genericError (msg name : string) (actual : list string) : Z * string :=
  (1%Z, msg +++ NLTAB +++ "Expected: " +++ name
            +++ NLTAB +++ "Candidates: " +++ Sprint actual).

(** ** packages.go *)

(** The error text of the probe [program --version]. *)
Definition probeMessage (e : Env) (program : string) : string :=
  match exec_Start e [program; "--version"] with
  | Some err => err
  | None => ""
  end.

(** The loop of [getManager] over the programs still to try; [managers] is
    the whole list, printed when none is found. *)
Fixpoint getManagerFrom (e : Env) (managers rest : list string) : Outcome string :=
  match rest with
  | [] => Fatal ("No package manager found. Attempted: " +++ Sprint managers)
  | program :: rest' =>
      if Bool.eqb (Contains (probeMessage e program) "not found") false
      then Ret program
      else getManagerFrom e managers rest'
  end.

Definition getManager (e : Env) (managers : list string) : Outcome string :=
  getManagerFrom e managers managers.

(** The map of package managers to their query option; a missing key reads
    as the empty string. *)
Definition managers : list (string * string) :=
  [("dpkg", "-s"); ("rpm", "-q"); ("pacman", "-Qs")].

Fixpoint mapGet (m : list (string * string)) (key : string) : string :=
  match m with
  | [] => ""
  | (k, v) :: m' => if String.eqb k key then v else mapGet m' key
  end.

(** [Installed]; [keys] is the order in which [range managers] gave the
    keys when the check was built. *)
Definition Installed (keys : list string) (pkg : string) : Thunk :=
  fun e =>
    name <- getManager e keys ;;
    let options := mapGet managers name in
    let out := exec_Output e [name; options; pkg] in
    if Contains out pkg then Ret (0%Z, "")
    else
      let msg := "Package was not found:" in
      let msg := msg +++ NLTAB +++ "Package name: " +++ pkg in
      let msg := msg +++ NLTAB +++ "Package manager: " +++ name in
      Ret (1%Z, msg).

Fixpoint getAptSourcesFrom (split : list (list string)) : list string :=
  match split with
  | [] => []
  | line :: rest =>
      match line with
      | first :: second :: _ =>
          if negb (MatchString commentRegex first)
          then second :: getAptSourcesFrom rest
          else getAptSourcesFrom rest
      | _ => getAptSourcesFrom rest
      end
  end.

Definition getAptSources (e : Env) (path : string) : list string :=
  getAptSourcesFrom (stringToSlice e (fileToString e path)).

Definition getPPAs (e : Env) (path : string) : list string :=
  filter (fun url => Contains url "ppa") (getAptSources e path).

Definition validURL (e : Env) (urlstr : string) : bool :=
  if url_Parse e urlstr then true else false.

(** The loop of [PPA] over the candidates still to see. *)
Fixpoint ppaLoop (e : Env) (name : string) (ppas rest : list string)
  : Z * string :=
  match rest with
  | [] => genericError "PPA not found" name ppas
  | ppa :: rest' =>
      if negb (validURL e ppa) then (1%Z, "PPA URL invalid: " +++ ppa)
      else if Contains ppa name then (0%Z, "")
      else ppaLoop e name ppas rest'
  end.

Definition PPA (name : string) : Thunk :=
  fun e =>
    let ppas := getPPAs e "/etc/apt/sources.list" in
    Ret (ppaLoop e name ppas ppas).

Record YumRepo : Type := {
  Name : string;
  Fullname : string;
  Url : string
}.

(** First loop of [getYumRepos]: the [name=] and [baseurl=] values of the
    lines that are not comments, each column in file order. *)
Fixpoint yumColumns (lines fullNames urls : list string)
  : list string * list string :=
  match lines with
  | [] => (fullNames, urls)
  | strLine :: rest =>
      if negb (MatchString commentRegex strLine) then
        let replaceName := TrimPrefix strLine "name=" in
        let replaceURL := TrimPrefix strLine "baseurl=" in
        if negb (String.eqb replaceName strLine)
        then yumColumns rest (fullNames ++ [replaceName]) urls
        else if negb (String.eqb replaceURL strLine)
        then yumColumns rest fullNames (urls ++ [replaceURL])
        else yumColumns rest fullNames urls
      else yumColumns rest fullNames urls
  end.

(** Second loop of [getYumRepos], over the indices of the shorter column;
    every index expression keeps its bound check. *)
Fixpoint yumZip (fullNames urls : list string) (indices : list nat)
  (repos : list YumRepo) : Outcome (list YumRepo) :=
  match indices with
  | [] => Ret repos
  | i :: rest =>
      fullName <- index fullNames i ;;
      let nameSplit := whitespaceSplit fullName in
      shortName <- index nameSplit (List.length nameSplit - 1) ;;
      url <- index urls i ;;
      let repo := {| Name := shortName; Fullname := fullName; Url := url |} in
      yumZip fullNames urls rest (repos ++ [repo])
  end.

(** The record assembler: the part of [getYumRepos] after the columns are
    read. *)
Definition assemble (fullNames urls : list string) : Outcome (list YumRepo) :=
  let shortList :=
    if Nat.ltb (List.length urls) (List.length fullNames) then urls else fullNames in
  yumZip fullNames urls (seq 0 (List.length shortList)) [].

Definition getYumRepos (e : Env) (path : string) : Outcome (list YumRepo) :=
  let '(fullNames, urls) := yumColumns (fileToLines e path) [] [] in
  assemble fullNames urls.

(** The loop of [existsRepoWithProperty]: the [switch] is run once for
    each repo. *)
Fixpoint repoProperties (prop : string) (repos : list YumRepo)
  (properties : list string) : Outcome (list string) :=
  match repos with
  | [] => Ret properties
  | repo :: rest =>
      if String.eqb prop "Url" then repoProperties prop rest (properties ++ [Url repo])
      else if String.eqb prop "Name" then repoProperties prop rest (properties ++ [Name repo])
      else if String.eqb prop "Fullname"
      then repoProperties prop rest (properties ++ [Fullname repo])
      else Fatal ("Yum repos don't have the requested property: " +++ prop)
  end.

Definition existsRepoWithProperty (prop val : string) : Thunk :=
  fun e =>
    repos <- getYumRepos e "/etc/yum.conf" ;;
    properties <- repoProperties prop repos [] ;;
    if strIn val properties then Ret (0%Z, "")
    else
      let msg := "Yum repo with given " +++ prop +++ " not found" in
      Ret (genericError msg val properties).

Definition YumRepoExists (name : string) : Thunk :=
  existsRepoWithProperty "Name" name.

Definition YumRepoURL (urlstr : string) : Thunk :=
  existsRepoWithProperty "Url" urlstr.

(** [[^#]IgnorePkg\s+=\s+.+]; the class [[^#]] takes one byte, the line
    feed included. *)
Definition ignorePkgRegex : list atom :=
  [One (fun c => negb (Ascii.eqb c "#"))] ++ lit "IgnorePkg"
  ++ [Plus isSpace] ++ lit "=" ++ [Plus isSpace; Plus isDot].

Definition pacmanIgnore (pkg : string) : Thunk :=
  fun e =>
    let data := fileToString e "/etc/pacman.conf" in
    let find := FindString ignorePkgRegex data in
    let msg := "Couldn't find package in IgnorePkg" in
    if negb (String.eqb find "") then
      let spl := Split find " " in
      if Nat.ltb 2 (List.length spl) then
        packages <- sliceFrom spl 2 ;;
        if strIn pkg packages then Ret (0%Z, "")
        else Ret (genericError msg pkg packages)
      else Ret (genericError msg pkg [])
    else Ret (genericError msg pkg []).

(** ** systemctl.go *)

Definition systemctlExists (e : Env) : bool :=
  match snd (exec_CombinedOutput e ["systemctl"; "--version"]) with
  | Some err => if Contains err "not found in $PATH" then false else true
  | None => true
  end.

Definition systemctlShouldExist (e : Env) : Outcome unit :=
  if negb (systemctlExists e) then Fatal "Couldn't execute systemctl" else Ret tt.

(** The loop of [systemctlService]; [i] is the index of the head of
    [names] in the column of names. *)
Fixpoint serviceLoop (service state : string) (statuses : list string)
  (i : nat) (names : list string) (actualState : string)
  : Outcome (Z * string) :=
  match names with
  | [] => Ret (genericError "Service did not have state" state [actualState])
  | srv :: rest =>
      if String.eqb service srv && Nat.ltb i (List.length statuses) then
        actualState' <- index statuses i ;;
        if String.eqb actualState' state then Ret (0%Z, "")
        else serviceLoop service state statuses (S i) rest actualState'
      else serviceLoop service state statuses (S i) rest actualState
  end.

Definition systemctlService (service : string) (loaded : bool) : Thunk :=
  fun e =>
    _ <- systemctlShouldExist e ;;
    let column := if loaded then 1 else 2 in
    let state := if loaded then "loaded" else "active" in
    let cmd := ["systemctl"; "--no-pager"; "list-units"] in
    let names := commandColumnNoHeader e 1 cmd in
    let statuses := commandColumnNoHeader e (column + 1) cmd in
    serviceLoop service state statuses 0 names "".

Definition systemctlLoaded (service : string) : Thunk :=
  systemctlService service true.

Definition systemctlActive (service : string) : Thunk :=
  systemctlService service false.

Definition systemctlSock (value : string) (path : bool) : Thunk :=
  fun e =>
    _ <- systemctlShouldExist e ;;
    let column := if path then 0 else 1 in
    let cmd := ["systemctl"; "list-sockets"] in
    let values := commandColumnNoHeader e column cmd in
    if strIn value values then Ret (0%Z, "")
    else Ret (genericError "Socket not found" value values).

Definition systemctlSockPath (path : string) : Thunk := systemctlSock path true.

Definition systemctlSockUnit (name : string) : Thunk := systemctlSock name false.

(** [(\w|\-)+\.timer]. *)
Definition timerRegex : list atom :=
  [Plus (fun c => isWord c || Ascii.eqb c "-")] ++ lit ".timer".

Definition getTimers (e : Env) (all : bool) : Outcome (list string) :=
  let cmd := if all then ["systemctl"; "list-timers"; "--all"]
             else ["systemctl"; "list-timers"] in
  let '(out, err) := exec_CombinedOutput e cmd in
  match err with
  | Some err =>
      Fatal ("Couldn't execute `systemctl list-timers`:" +++ NLTAB +++ err)
  | None => Ret (FindAllString timerRegex out)
  end.

Definition timersThunk (unit : string) (all : bool) : Thunk :=
  fun e =>
    timers <- getTimers e all ;;
    if strIn unit timers then Ret (0%Z, "")
    else Ret (genericError "Timer not found" unit timers).

Definition systemctlTimer (unit : string) : Thunk := timersThunk unit false.

Definition systemctlTimerLoaded (unit : string) : Thunk := timersThunk unit true.

(** [getUnitFilesWithStatuses]: both columns without their last two
    entries; the two slice expressions are evaluated left to right. *)
Definition getUnitFilesWithStatuses (e : Env)
  : Outcome (list string * list string) :=
  let cmd := ["systemctl"; "--no-pager"; "list-unit-files"] in
  let units := commandColumnNoHeader e 0 cmd in
  let statuses := commandColumnNoHeader e 1 cmd in
  units' <- sliceTo units (Z.of_nat (List.length units) - 2) ;;
  statuses' <- sliceTo statuses (Z.of_nat (List.length statuses) - 2) ;;
  Ret (units', statuses').

Fixpoint unitFileLoop (unit status : string) (statuses : list string)
  (i : nat) (units : list string) (actualStatus : string)
  : Outcome (Z * string) :=
  match units with
  | [] => Ret (genericError "Unit didn't have status" status [actualStatus])
  | un :: rest =>
      if String.eqb un unit then
        actualStatus' <- index statuses i ;;
        if String.eqb actualStatus' status then Ret (0%Z, "")
        else unitFileLoop unit status statuses (S i) rest actualStatus'
      else unitFileLoop unit status statuses (S i) rest actualStatus
  end.

Definition systemctlUnitFileStatus (unit status : string) : Thunk :=
  fun e =>
    columns <- getUnitFilesWithStatuses e ;;
    let '(units, statuses) := columns in
    unitFileLoop unit status statuses 0 units "".

(** ** The catalog of checks *)

Inductive Check : Type :=
| CheckInstalled (keys : list string) (pkg : string)
| CheckPPA (name : string)
| CheckYumRepoExists (name : string)
| CheckYumRepoURL (urlstr : string)
| CheckPacmanIgnore (pkg : string)
| CheckSystemctlLoaded (service : string)
| CheckSystemctlActive (service : string)
| CheckSystemctlSockPath (path : string)
| CheckSystemctlSockUnit (name : string)
| CheckSystemctlTimer (unit : string)
| CheckSystemctlTimerLoaded (unit : string)
| CheckSystemctlUnitFileStatus (unit status : string).

Definition run (c : Check) : Thunk :=
  match c with
  | CheckInstalled keys pkg => Installed keys pkg
  | CheckPPA name => PPA name
  | CheckYumRepoExists name => YumRepoExists name
  | CheckYumRepoURL urlstr => YumRepoURL urlstr
  | CheckPacmanIgnore pkg => pacmanIgnore pkg
  | CheckSystemctlLoaded service => systemctlLoaded service
  | CheckSystemctlActive service => systemctlActive service
  | CheckSystemctlSockPath path => systemctlSockPath path
  | CheckSystemctlSockUnit name => systemctlSockUnit name
  | CheckSystemctlTimer unit => systemctlTimer unit
  | CheckSystemctlTimerLoaded unit => systemctlTimerLoaded unit
  | CheckSystemctlUnitFileStatus unit status => systemctlUnitFileStatus unit status
  end.

(** The label and the expected value a check hands to [genericError]. *)
Definition report (c : Check) : option (string * string) :=
  match c with
  | CheckInstalled _ _ => None
  | CheckPPA name => Some ("PPA not found", name)
  | CheckYumRepoExists name => Some ("Yum repo with given Name not found", name)
  | CheckYumRepoURL urlstr => Some ("Yum repo with given Url not found", urlstr)
  | CheckPacmanIgnore pkg => Some ("Couldn't find package in IgnorePkg", pkg)
  | CheckSystemctlLoaded _ => Some ("Service did not have state", "loaded")
  | CheckSystemctlActive _ => Some ("Service did not have state", "active")
  | CheckSystemctlSockPath path => Some ("Socket not found", path)
  | CheckSystemctlSockUnit name => Some ("Socket not found", name)
  | CheckSystemctlTimer unit => Some ("Timer not found", unit)
  | CheckSystemctlTimerLoaded unit => Some ("Timer not found", unit)
  | CheckSystemctlUnitFileStatus _ status => Some ("Unit didn't have status", status)
  end.

(** The messages a failing check can carry: the report of [genericError]
    for the check's label and expected value, the package message of
    [Installed], and the invalid-URL message of [PPA]. *)
Definition failureMessage (c : Check) (msg : string) : Prop :=
  match c with
  | CheckInstalled _ pkg =>
      exists name,
        msg = "Package was not found:" +++ NLTAB +++ "Package name: " +++ pkg
              +++ NLTAB +++ "Package manager: " +++ name
  | CheckPPA name =>
      (exists ppa, msg = "PPA URL invalid: " +++ ppa)
      \/ (exists candidates, (1%Z, msg) = genericError "PPA not found" name candidates)
  | _ =>
      exists label expected candidates,
        report c = Some (label, expected)
        /\ (1%Z, msg) = genericError label expected candidates
  end.

(** The record the assembler builds from a full name and a url. *)
Definition repoOf (p : string * string) : YumRepo :=
  {| Name := last (whitespaceSplit (fst p)) ""; Fullname := fst p; Url := snd p |}.

(** A line of yum.conf that feeds neither column. *)
Definition inert (line : string) : bool :=
  MatchString commentRegex line
  || (negb (String.prefix "name=" line) && negb (String.prefix "baseurl=" line)).

(** A host for examples: no program is found, every file is empty. *)
Definition bareHost : Env := {|
  exec_Start := fun _ => Some "exec: executable file not found in $PATH";
  exec_Output := fun _ => "";
  exec_CombinedOutput :=
    fun _ => ("", Some "exec: executable file not found in $PATH");
  url_Parse := fun _ => true;
  fileToString := fun _ => "";
  fileToLines := fun _ => [];
  stringToSlice := fun _ => [];
  commandColumnNoHeader := fun _ _ => []
|}.

(** A host where only [rpm] can be started (its probe fails for a reason
    other than a missing executable) and knows the package
    [vim-enhanced]. *)
Definition rpmHost : Env := {|
  exec_Start := fun argv =>
    match argv with
    | program :: _ =>
        if String.eqb program "rpm"
        then Some "fork/exec /usr/bin/rpm: permission denied"
        else Some "exec: executable file not found in $PATH"
    | [] => Some "exec: no command"
    end;
  exec_Output := fun argv =>
    match argv with
    | program :: _ => if String.eqb program "rpm" then "vim-enhanced-9.0.2" else ""
    | [] => ""
    end;
  exec_CombinedOutput := fun _ => ("", None);
  url_Parse := fun _ => true;
  fileToString := fun _ => "";
  fileToLines := fun _ => [];
  stringToSlice := fun _ => [];
  commandColumnNoHeader := fun _ _ => []
|}.

(** A host whose files all hold the given lines and text; [systemctl]
    runs, its column reader gives [columns]. *)
Definition fileHost (lines : list string) (text : string)
  (slices : list (list string)) (parses : string -> bool)
  (columns : nat -> list string -> list string) : Env := {|
  exec_Start := fun _ => None;
  exec_Output := fun _ => "";
  exec_CombinedOutput := fun _ => ("", None);
  url_Parse := parses;
  fileToString := fun _ => text;
  fileToLines := fun _ => lines;
  stringToSlice := fun _ => slices;
  commandColumnNoHeader := columns
|}.

Definition fedoraLines : list string :=
  ["[updates]"; "name=Fedora 38 - x86_64 (updates)"; "# mirror";
   "baseurl=https://example.com/updates"; "enabled=1"].

Definition fedoraRepo : YumRepo :=
  {| Name := "(updates)";
     Fullname := "Fedora 38 - x86_64 (updates)";
     Url := "https://example.com/updates" |}.

(** The entries the loop of [PPA] passes over: they parse as URLs and do
    not contain the target. *)
Definition passedOver (e : Env) (name ppa : string) : Prop :=
  url_Parse e ppa = true /\ Contains ppa name = false.

(** An apt sources file of three PPA lines, the second with a URL that
    does not parse. *)
Definition aptSlices : list (list string) :=
  [["deb"; "http://ppa.launchpad.net/git-core/ppa/ubuntu"; "focal"; "main"];
   ["#"; "deb"; "http://ppa.launchpad.net/old/ppa/ubuntu"];
   ["deb"; "http://ppa.launchpad.net/%zz/ubuntu"; "focal"; "main"];
   ["deb"; "http://archive.ubuntu.com/ubuntu"; "focal"; "main"];
   ["deb"; "http://ppa.launchpad.net/neovim/ubuntu"; "focal"; "main"]].

Definition aptHost : Env :=
  fileHost [] "" aptSlices (fun u => negb (Contains u "%zz")) (fun _ _ => []).

(** The column reader of a host with two units: [sshd.service] loaded and
    inactive, [nginx.service] loaded and active. *)
Definition unitColumns (column : nat) (cmd : list string) : list string :=
  match column with
  | 1 => ["sshd.service"; "nginx.service"]
  | 2 => ["loaded"; "loaded"]
  | 3 => ["inactive"; "active"]
  | _ => []
  end.

Definition unitHost : Env := fileHost [] "" [] (fun _ => true) unitColumns.

(** The state literal and the column read for it by [systemctlService]. *)
Definition stateOf (loaded : bool) : string :=
  if loaded then "loaded" else "active".

Definition stateColumn (loaded : bool) : nat := if loaded then 2 else 3.

(** The property names of a yum repo record. *)
Definition supported (prop : string) : bool :=
  String.eqb prop "Url" || String.eqb prop "Name" || String.eqb prop "Fullname".

(** ** What a pattern matches

    The strings a sequence of atoms matches, stated without the order in
    which the matcher tries them. *)

Fixpoint stringForall (p : ascii -> bool) (s : string) : bool :=
  match s with
  | "" => true
  | String c s' => p c && stringForall p s'
  end.

Inductive Matches : list atom -> string -> Prop :=
| Matches_nil : Matches [] ""
| Matches_One (p : ascii -> bool) (re : list atom) (c : ascii) (s : string) :
    p c = true -> Matches re s -> Matches (One p :: re) (String c s)
| Matches_Plus (p : ascii -> bool) (re : list atom) (run s : string) :
    run <> "" -> stringForall p run = true -> Matches re s ->
    Matches (Plus p :: re) (run +++ s)
| Matches_Star (p : ascii -> bool) (re : list atom) (run s : string) :
    stringForall p run = true -> Matches re s ->
    Matches (Star p :: re) (run +++ s).

(** The bytes of a timer unit name before [.timer]. *)
Definition isTimerChar (c : ascii) : bool := isWord c || Ascii.eqb c "-".

(** The values of the lines that start with [prefix], in file order. *)
Definition valuesOf (prefix : string) (lines : list string) : list string :=
  flat_map (fun line => if String.prefix prefix line
                        then [TrimPrefix line prefix] else []) lines.

(** A host whose [list-timers] output shows one timer. *)
Definition timerHost : Env := {|
  exec_Start := fun _ => None;
  exec_Output := fun _ => "";
  exec_CombinedOutput := fun _ =>
    ("NEXT LEFT LAST PASSED UNIT ACTIVATES" +++ NL
     +++ "Mon 00:00 5h Sun 00:00 18h logrotate.timer logrotate.service" +++ NL,
     None);
  url_Parse := fun _ => true;
  fileToString := fun _ => "";
  fileToLines := fun _ => [];
  stringToSlice := fun _ => [];
  commandColumnNoHeader := fun _ _ => []
|}.

(** A host whose column reader gives [units] as column 0 and [statuses]
    as column 1. *)
Definition unitFileHost (units statuses : list string) : Env :=
  fileHost [] "" [] (fun _ => true)
    (fun column _ => match column with
                     | 0 => units
                     | 1 => statuses
                     | _ => []
                     end).

(** The command of [getTimers]. *)
Definition timersCommand (all : bool) : list string :=
  if all then ["systemctl"; "list-timers"; "--all"]
  else ["systemctl"; "list-timers"].

(** * Properties *)

(** ** Strings *)

Lemma prefix_append (s t : string) : String.prefix s (s +++ t) = true.
Proof.
  induction s as [|c s IH]; simpl.
  - destruct t; reflexivity.
  - destruct (ascii_dec c c) as [_|ne]; [exact IH | now elim ne].
Qed.

Lemma Contains_unfold (s sub : string) :
  Contains s sub =
  if String.prefix sub s then true
  else match s with
       | "" => false
       | String _ s' => Contains s' sub
       end.
Proof. destruct s; reflexivity. Qed.

Lemma Contains_here (sub rest : string) : Contains (sub +++ rest) sub = true.
Proof. rewrite Contains_unfold, prefix_append; reflexivity. Qed.

Lemma Contains_append_r (a b sub : string) :
  Contains b sub = true -> Contains (a +++ b) sub = true.
Proof.
  intros H. induction a as [|c a IH]; [exact H|].
  rewrite Contains_unfold.
  destruct (String.prefix sub (String c a +++ b)); [reflexivity | exact IH].
Qed.

Lemma append_nonempty_r (a b : string) : b <> "" -> a +++ b <> "".
Proof.
  destruct a; simpl; [trivial | discriminate].
Qed.

Lemma genericError_code (msg name : string) (actual : list string) :
  fst (genericError msg name actual) = 1%Z.
Proof. reflexivity. Qed.

Lemma genericError_nonempty (msg name : string) (actual : list string) :
  snd (genericError msg name actual) <> "".
Proof.
  unfold genericError; cbn [snd]. apply append_nonempty_r.
  unfold NLTAB; simpl; discriminate.
Qed.

Lemma genericError_mentions_expected (msg name : string) (actual : list string) :
  Contains (snd (genericError msg name actual)) "Expected: " = true.
Proof.
  unfold genericError; cbn [snd].
  apply Contains_append_r, (Contains_append_r NLTAB), Contains_here.
Qed.

(** ** The record assembler *)

Lemma SplitRuns_nonempty (s : string) :
  forall inRun cur, SplitRuns inRun cur s <> [].
Proof.
  induction s as [|c s IH]; intros inRun cur; simpl; [discriminate|].
  destruct (isSpace c); [destruct inRun; [apply IH | discriminate] | apply IH].
Qed.

Lemma index_last {A : Type} (l : list A) (d : A) :
  l <> [] -> index l (List.length l - 1) = Ret (last l d).
Proof.
  induction l as [|a l IH]; intros Hne; [contradiction|].
  destruct l as [|b l]; [reflexivity|].
  assert (Hb : b :: l <> []) by discriminate.
  specialize (IH Hb). unfold index in *.
  replace (List.length (a :: b :: l) - 1) with (S (List.length (b :: l) - 1))
    by (cbn [List.length]; lia).
  exact IH.
Qed.

Lemma whitespaceSplit_last (s : string) :
  index (whitespaceSplit s) (List.length (whitespaceSplit s) - 1)
  = Ret (last (whitespaceSplit s) "").
Proof. apply index_last, SplitRuns_nonempty. Qed.

Lemma nth_error_combine_some {A B : Type} (l : list A) (l' : list B) :
  forall i p, nth_error (combine l l') i = Some p ->
    nth_error l i = Some (fst p) /\ nth_error l' i = Some (snd p).
Proof.
  revert l'. induction l as [|a l IH]; intros l' i p H.
  - destruct i; discriminate.
  - destruct l' as [|b l']; [destruct i; discriminate|].
    destruct i as [|i]; simpl in *.
    + injection H as <-. split; reflexivity.
    + apply IH; exact H.
Qed.

Lemma skipn_nth_error {A : Type} (l : list A) :
  forall k a, nth_error l k = Some a -> skipn k l = a :: skipn (S k) l.
Proof.
  induction l as [|b l IH]; intros k a H.
  - destruct k; discriminate.
  - destruct k as [|k]; simpl in *.
    + injection H as ->. reflexivity.
    + apply IH; exact H.
Qed.

Lemma yumZip_seq (fullNames urls : list string) :
  forall n k repos,
    k + n <= List.length (combine fullNames urls) ->
    yumZip fullNames urls (seq k n) repos =
    Ret (repos ++ map repoOf (firstn n (skipn k (combine fullNames urls)))).
Proof.
  induction n as [|n IH]; intros k repos Hk.
  - simpl. now rewrite app_nil_r.
  - destruct (nth_error (combine fullNames urls) k) as [p|] eqn:Hp.
    2:{ apply nth_error_None in Hp. lia. }
    destruct (nth_error_combine_some _ _ _ _ Hp) as [Hf Hu].
    rewrite (skipn_nth_error _ _ _ Hp).
    cbn [seq yumZip firstn map]. unfold index at 1. rewrite Hf. cbn [bind].
    rewrite whitespaceSplit_last. cbn [bind].
    unfold index. rewrite Hu. cbn [bind].
    rewrite IH by lia. rewrite <- app_assoc. reflexivity.
Qed.

(** C2.  For all columns [fullNames] and [urls], the empty ones included,
    the record assembler returns (it raises no index error) the records of
    the positions both columns have: the pair at position [i] gives the
    record at position [i], and the number of records is the smaller of
    the two lengths, the rest of the longer column being dropped. *)
Theorem assemble_min_length (fullNames urls : list string) :
  assemble fullNames urls = Ret (map repoOf (combine fullNames urls))
  /\ List.length (map repoOf (combine fullNames urls))
     = Nat.min (List.length fullNames) (List.length urls).
Proof.
  split.
  - unfold assemble.
    assert (Hlen : List.length
              (if Nat.ltb (List.length urls) (List.length fullNames)
               then urls else fullNames)
            = List.length (combine fullNames urls)).
    { rewrite length_combine.
      destruct (Nat.ltb_spec (List.length urls) (List.length fullNames)); lia. }
    rewrite Hlen, yumZip_seq by lia.
    cbn [skipn app]. now rewrite firstn_all.
  - now rewrite length_map, length_combine.
Qed.

Lemma yumColumns_app (l1 l2 : list string) :
  forall fullNames urls,
    yumColumns (l1 ++ l2) fullNames urls =
    yumColumns l2 (fst (yumColumns l1 fullNames urls))
                  (snd (yumColumns l1 fullNames urls)).
Proof.
  induction l1 as [|line l1 IH]; intros fullNames urls; [reflexivity|].
  cbn [app yumColumns].
  destruct (negb (MatchString commentRegex line)); [|apply IH].
  destruct (negb (String.eqb (TrimPrefix line "name=") line)); [apply IH|].
  destruct (negb (String.eqb (TrimPrefix line "baseurl=") line)); apply IH.
Qed.

Lemma yumColumns_inert (l : list string) :
  forallb inert l = true ->
  forall fullNames urls, yumColumns l fullNames urls = (fullNames, urls).
Proof.
  induction l as [|line l IH]; intros Hl fullNames urls; [reflexivity|].
  cbn [forallb] in Hl. apply andb_true_iff in Hl as [Hline Hl].
  cbn [yumColumns]. unfold inert in Hline.
  destruct (MatchString commentRegex line); cbn [negb]; [now apply IH|].
  cbn [orb] in Hline. apply andb_true_iff in Hline as [Hn Hu].
  unfold TrimPrefix.
  destruct (String.prefix "name=" line); [discriminate|].
  destruct (String.prefix "baseurl=" line); [discriminate|].
  rewrite String.eqb_refl. cbn [negb]. now apply IH.
Qed.

(** C3.  When /etc/yum.conf holds the lines
    [name=Fedora 38 - x86_64 (updates)] and
    [baseurl=https://example.com/updates], and its other lines are
    comments or carry neither prefix, the assembler gives the one
    record with the last white-space token of the full name as its name;
    the check by name passes for ["(updates)"] and fails for ["nomatch"]
    with code 1 and a report that mentions ["(updates)"]. *)
Theorem yum_fedora_scenario (e : Env) (pre mid post : list string) :
  forallb inert pre = true ->
  forallb inert mid = true ->
  forallb inert post = true ->
  fileToLines e "/etc/yum.conf"
  = pre ++ ["name=Fedora 38 - x86_64 (updates)"] ++ mid
        ++ ["baseurl=https://example.com/updates"] ++ post ->
  getYumRepos e "/etc/yum.conf" = Ret [fedoraRepo]
  /\ Name fedoraRepo = last (whitespaceSplit (Fullname fedoraRepo)) ""
  /\ YumRepoExists "(updates)" e = Ret (0%Z, "")
  /\ exists m, YumRepoExists "nomatch" e = Ret (1%Z, m)
               /\ m <> "" /\ Contains m "(updates)" = true.
Proof.
  intros Hpre Hmid Hpost Hlines.
  assert (Hcols : yumColumns (fileToLines e "/etc/yum.conf") [] []
                  = (["Fedora 38 - x86_64 (updates)"],
                     ["https://example.com/updates"])).
  { rewrite Hlines.
    rewrite yumColumns_app, (yumColumns_inert pre Hpre). cbn [fst snd].
    rewrite yumColumns_app.
    replace (yumColumns ["name=Fedora 38 - x86_64 (updates)"] [] [])
      with (["Fedora 38 - x86_64 (updates)"], @nil string) by reflexivity.
    cbn [fst snd].
    rewrite yumColumns_app, (yumColumns_inert mid Hmid). cbn [fst snd].
    rewrite yumColumns_app.
    replace (yumColumns ["baseurl=https://example.com/updates"]
               ["Fedora 38 - x86_64 (updates)"] [])
      with (["Fedora 38 - x86_64 (updates)"], ["https://example.com/updates"])
      by reflexivity.
    cbn [fst snd]. now apply yumColumns_inert. }
  assert (Hrepos : getYumRepos e "/etc/yum.conf" = Ret [fedoraRepo]).
  { unfold getYumRepos. rewrite Hcols. reflexivity. }
  split; [exact Hrepos|]. split; [reflexivity|].
  unfold YumRepoExists, existsRepoWithProperty. rewrite Hrepos.
  split; [reflexivity|].
  eexists. split; [reflexivity|]. split; [discriminate | reflexivity].
Qed.

Lemma yum_fedora_scenario_witness :
  getYumRepos (fileHost fedoraLines "" [] (fun _ => true) (fun _ _ => []))
    "/etc/yum.conf" = Ret [fedoraRepo]
  /\ Name fedoraRepo = last (whitespaceSplit (Fullname fedoraRepo)) ""
  /\ YumRepoExists "(updates)"
       (fileHost fedoraLines "" [] (fun _ => true) (fun _ _ => []))
     = Ret (0%Z, "")
  /\ exists m,
       YumRepoExists "nomatch"
         (fileHost fedoraLines "" [] (fun _ => true) (fun _ _ => []))
       = Ret (1%Z, m)
       /\ m <> "" /\ Contains m "(updates)" = true.
Proof.
  apply (yum_fedora_scenario
           (fileHost fedoraLines "" [] (fun _ => true) (fun _ _ => []))
           ["[updates]"] ["# mirror"] ["enabled=1"]); reflexivity.
Defined.

(** ** The backend prober *)

Lemma getManagerFrom_first (e : Env) (all : list string) (program : string)
  (post : list string) :
  Contains (probeMessage e program) "not found" = false ->
  forall pre,
    Forall (fun q => Contains (probeMessage e q) "not found" = true) pre ->
    getManagerFrom e all (pre ++ program :: post) = Ret program.
Proof.
  intros Hp pre Hpre. induction Hpre as [|q pre Hq _ IH]; cbn [app getManagerFrom].
  - now rewrite Hp.
  - now rewrite Hq.
Qed.

Lemma getManagerFrom_none (e : Env) (all rest : list string) :
  Forall (fun q => Contains (probeMessage e q) "not found" = true) rest ->
  getManagerFrom e all rest
  = Fatal ("No package manager found. Attempted: " +++ Sprint all).
Proof.
  intros Hrest. induction Hrest as [|q rest Hq _ IH]; cbn [getManagerFrom].
  - reflexivity.
  - now rewrite Hq.
Qed.

(** C4.  For every ordered list of candidates the prober returns the first
    one whose probe does not fail with a "not found" error text, whatever
    other error the probe gave; when every candidate fails with
    "not found", and so for the empty list, it ends the process with the
    diagnostic that lists all candidates and returns no backend. *)
Theorem getManager_first_found_or_fatal (e : Env) (candidates : list string) :
  (forall pre program post,
      candidates = pre ++ program :: post ->
      Forall (fun q => Contains (probeMessage e q) "not found" = true) pre ->
      Contains (probeMessage e program) "not found" = false ->
      getManager e candidates = Ret program)
  /\ (Forall (fun q => Contains (probeMessage e q) "not found" = true) candidates ->
      getManager e candidates
      = Fatal ("No package manager found. Attempted: " +++ Sprint candidates))
  /\ getManager e [] = Fatal "No package manager found. Attempted: []".
Proof.
  split; [|split].
  - intros pre program post -> Hpre Hp. unfold getManager.
    now apply getManagerFrom_first.
  - intros Hall. unfold getManager. now apply getManagerFrom_none.
  - reflexivity.
Qed.

Lemma getManager_first_found_or_fatal_witness :
  getManager rpmHost ["dpkg"; "rpm"; "pacman"] = Ret "rpm"
  /\ getManager bareHost ["dpkg"; "rpm"; "pacman"]
     = Fatal "No package manager found. Attempted: [dpkg rpm pacman]".
Proof.
  split.
  - apply (proj1 (getManager_first_found_or_fatal rpmHost ["dpkg"; "rpm"; "pacman"])
             ["dpkg"] "rpm" ["pacman"]).
    + reflexivity.
    + repeat constructor.
    + reflexivity.
  - apply (proj1 (proj2 (getManager_first_found_or_fatal bareHost
                           ["dpkg"; "rpm"; "pacman"]))).
    repeat constructor.
Defined.

(** ** The package-installed check *)

Lemma Contains_refl (s : string) : Contains s s = true.
Proof.
  rewrite Contains_unfold.
  replace (String.prefix s s) with true; [reflexivity|].
  symmetry. induction s as [|c s IH]; simpl; [reflexivity|].
  destruct (ascii_dec c c) as [_|ne]; [exact IH | now elim ne].
Qed.

(** C6.  Once a package manager is selected, the package-installed check
    returns [(0, "")] if and only if the manager's query output contains
    the package name as a substring; when it does not, the check returns
    code 1 with the message that names the package and the manager. *)
Theorem Installed_iff_substring (e : Env) (keys : list string) (pkg name : string) :
  getManager e keys = Ret name ->
  (Installed keys pkg e = Ret (0%Z, "")
   <-> Contains (exec_Output e [name; mapGet managers name; pkg]) pkg = true)
  /\ (Contains (exec_Output e [name; mapGet managers name; pkg]) pkg = false ->
      Installed keys pkg e
      = Ret (1%Z, "Package was not found:" +++ NLTAB +++ "Package name: " +++ pkg
                  +++ NLTAB +++ "Package manager: " +++ name)
      /\ Contains ("Package was not found:" +++ NLTAB +++ "Package name: " +++ pkg
                   +++ NLTAB +++ "Package manager: " +++ name) pkg = true
      /\ Contains ("Package was not found:" +++ NLTAB +++ "Package name: " +++ pkg
                   +++ NLTAB +++ "Package manager: " +++ name) name = true).
Proof.
  intros Hname. unfold Installed. rewrite Hname. cbn [bind].
  destruct (Contains (exec_Output e [name; mapGet managers name; pkg]) pkg).
  - split; [split; reflexivity | discriminate].
  - split; [split; discriminate|]. intros _.
    split; [reflexivity|]. split.
    + apply (Contains_append_r "Package was not found:"),
        (Contains_append_r NLTAB), (Contains_append_r "Package name: "),
        Contains_here.
    + apply (Contains_append_r "Package was not found:"),
        (Contains_append_r NLTAB), (Contains_append_r "Package name: "),
        (Contains_append_r pkg), (Contains_append_r NLTAB),
        (Contains_append_r "Package manager: "), Contains_refl.
Qed.

Lemma Installed_iff_substring_witness :
  (Installed ["dpkg"; "rpm"; "pacman"] "vim" rpmHost = Ret (0%Z, "")
   <-> Contains (exec_Output rpmHost ["rpm"; mapGet managers "rpm"; "vim"]) "vim"
       = true)
  /\ Installed ["dpkg"; "rpm"; "pacman"] "emacs" rpmHost
     = Ret (1%Z, "Package was not found:" +++ NLTAB +++ "Package name: emacs"
                 +++ NLTAB +++ "Package manager: rpm").
Proof.
  split.
  - apply (Installed_iff_substring rpmHost ["dpkg"; "rpm"; "pacman"] "vim" "rpm").
    reflexivity.
  - apply (proj2 (Installed_iff_substring rpmHost ["dpkg"; "rpm"; "pacman"]
                    "emacs" "rpm" eq_refl)).
    reflexivity.
Defined.

(** ** The PPA check *)

Lemma ppaLoop_invalid (e : Env) (name : string) (all : list string)
  (bad : string) (post : list string) :
  url_Parse e bad = false ->
  forall pre, Forall (passedOver e name) pre ->
    ppaLoop e name all (pre ++ bad :: post) = (1%Z, "PPA URL invalid: " +++ bad).
Proof.
  intros Hbad pre Hpre.
  induction Hpre as [|p pre [Hv Hc] _ IH]; cbn [app ppaLoop]; unfold validURL.
  - now rewrite Hbad.
  - now rewrite Hv, Hc.
Qed.

Lemma ppaLoop_match (e : Env) (name : string) (all : list string)
  (good : string) (post : list string) :
  url_Parse e good = true -> Contains good name = true ->
  forall pre, Forall (passedOver e name) pre ->
    ppaLoop e name all (pre ++ good :: post) = (0%Z, "").
Proof.
  intros Hv Hc pre Hpre.
  induction Hpre as [|p pre [Hpv Hpc] _ IH]; cbn [app ppaLoop]; unfold validURL.
  - now rewrite Hv, Hc.
  - now rewrite Hpv, Hpc.
Qed.

Lemma ppaLoop_none (e : Env) (name : string) (all rest : list string) :
  Forall (passedOver e name) rest ->
  ppaLoop e name all rest = genericError "PPA not found" name all.
Proof.
  intros Hrest.
  induction Hrest as [|p rest [Hv Hc] _ IH]; cbn [ppaLoop]; unfold validURL.
  - reflexivity.
  - now rewrite Hv, Hc.
Qed.

Lemma ppaLoop_pass_inv (e : Env) (name : string) (all rest : list string) :
  ppaLoop e name all rest = (0%Z, "") ->
  exists pre good post,
    rest = pre ++ good :: post /\ Forall (passedOver e name) pre
    /\ url_Parse e good = true /\ Contains good name = true.
Proof.
  induction rest as [|p rest IH]; cbn [ppaLoop]; unfold validURL.
  - discriminate.
  - destruct (url_Parse e p) eqn:Hv; cbn [negb]; [|discriminate].
    destruct (Contains p name) eqn:Hc.
    + intros _. exists [], p, rest. repeat split; auto.
    + intros H. destruct (IH H) as (pre & good & post & -> & Hpre & Hg & Hgc).
      exists (p :: pre), good, post. repeat split; auto.
      constructor; [split; assumption | assumption].
Qed.

(** C5.  For every target and every ordered list of PPA candidates: when
    the first entry that fails URL parsing comes before any entry that
    contains the target, the check returns
    [(1, "PPA URL invalid: " + entry)], whether or not that entry contains
    the target; it returns [(0, "")] exactly when the first entry that
    either fails to parse or contains the target parses and contains it;
    and when every entry parses and none contains the target it returns
    the generic report over all candidates. *)
Theorem PPA_first_invalid_or_match (e : Env) (name : string) :
  (forall pre bad post,
      getPPAs e "/etc/apt/sources.list" = pre ++ bad :: post ->
      Forall (passedOver e name) pre ->
      url_Parse e bad = false ->
      PPA name e = Ret (1%Z, "PPA URL invalid: " +++ bad))
  /\ (PPA name e = Ret (0%Z, "")
      <-> exists pre good post,
            getPPAs e "/etc/apt/sources.list" = pre ++ good :: post
            /\ Forall (passedOver e name) pre
            /\ url_Parse e good = true /\ Contains good name = true)
  /\ (Forall (passedOver e name) (getPPAs e "/etc/apt/sources.list") ->
      PPA name e
      = Ret (genericError "PPA not found" name (getPPAs e "/etc/apt/sources.list"))).
Proof.
  unfold PPA. split; [|split].
  - intros pre bad post Heq Hpre Hbad. rewrite Heq at 2.
    now rewrite ppaLoop_invalid.
  - split.
    + intros H. injection H as H. now apply ppaLoop_pass_inv in H.
    + intros (pre & good & post & Heq & Hpre & Hv & Hc). rewrite Heq at 2.
      now rewrite ppaLoop_match.
  - intros Hall. now rewrite ppaLoop_none.
Qed.

Lemma PPA_first_invalid_or_match_witness :
  PPA "neovim" aptHost = Ret (1%Z, "PPA URL invalid: http://ppa.launchpad.net/%zz/ubuntu")
  /\ PPA "git-core" aptHost = Ret (0%Z, "")
  /\ PPA "git-core" (fileHost [] "" [] (fun _ => true) (fun _ _ => []))
     = Ret (genericError "PPA not found" "git-core" []).
Proof.
  split; [|split].
  - apply (proj1 (PPA_first_invalid_or_match aptHost "neovim")
             ["http://ppa.launchpad.net/git-core/ppa/ubuntu"]
             "http://ppa.launchpad.net/%zz/ubuntu"
             ["http://ppa.launchpad.net/neovim/ubuntu"]).
    + reflexivity.
    + repeat constructor.
    + reflexivity.
  - apply (proj1 (proj2 (PPA_first_invalid_or_match aptHost "git-core"))).
    exists [], "http://ppa.launchpad.net/git-core/ppa/ubuntu",
      ["http://ppa.launchpad.net/%zz/ubuntu"; "http://ppa.launchpad.net/neovim/ubuntu"].
    repeat split. constructor.
  - apply (proj2 (proj2 (PPA_first_invalid_or_match
                           (fileHost [] "" [] (fun _ => true) (fun _ _ => []))
                           "git-core"))).
    constructor.
Defined.

(** ** The pacman ignore check *)

(** A config whose IgnorePkg line comes after the line of the section
    header: the pattern takes the line feed before the line, and the tokens
    after the first two are the candidates; membership is exact. *)
Lemma pacmanIgnore_after_header (e : Env) (rest : string) :
  fileToString e "/etc/pacman.conf"
  = "[options]" +++ NL +++ "IgnorePkg = foo bar" +++ NL +++ rest ->
  pacmanIgnore "bar" e = Ret (0%Z, "")
  /\ pacmanIgnore "baz" e
     = Ret (genericError "Couldn't find package in IgnorePkg" "baz" ["foo"; "bar"])
  /\ pacmanIgnore "ba" e
     = Ret (genericError "Couldn't find package in IgnorePkg" "ba" ["foo"; "bar"]).
Proof.
  intros Hdata. unfold pacmanIgnore. rewrite Hdata.
  repeat split; reflexivity.
Qed.

(** C7 (the code departs from the claim).  A config that starts with the
    line [IgnorePkg = foo bar]: the pattern asks for a byte before
    [IgnorePkg], finds none, and the check for ["bar"] fails with no
    candidates. *)
Theorem pacmanIgnore_first_line_missed (e : Env) :
  fileToString e "/etc/pacman.conf" = "IgnorePkg = foo bar" +++ NL ->
  FindString ignorePkgRegex (fileToString e "/etc/pacman.conf") = ""
  /\ pacmanIgnore "bar" e
     = Ret (genericError "Couldn't find package in IgnorePkg" "bar" []).
Proof.
  intros Hdata. unfold pacmanIgnore. rewrite Hdata. split; reflexivity.
Qed.

Lemma pacmanIgnore_first_line_missed_witness :
  FindString ignorePkgRegex ("IgnorePkg = foo bar" +++ NL) = ""
  /\ pacmanIgnore "bar"
       (fileHost [] ("IgnorePkg = foo bar" +++ NL) [] (fun _ => true) (fun _ _ => []))
     = Ret (genericError "Couldn't find package in IgnorePkg" "bar" []).
Proof.
  apply (pacmanIgnore_first_line_missed
           (fileHost [] ("IgnorePkg = foo bar" +++ NL) [] (fun _ => true)
              (fun _ _ => []))).
  reflexivity.
Defined.

(** ** The yum property lookup *)

(** X6.  With at least one repo record, a lookup of a property other than
    [Url], [Name] and [Fullname] ends the process with the diagnostic that
    names the property. *)
Lemma existsRepoWithProperty_unsupported_fatal (e : Env) (prop val : string)
  (repo : YumRepo) (repos : list YumRepo) :
  supported prop = false ->
  getYumRepos e "/etc/yum.conf" = Ret (repo :: repos) ->
  existsRepoWithProperty prop val e
  = Fatal ("Yum repos don't have the requested property: " +++ prop).
Proof.
  unfold supported. intros Hprop Hrepos.
  apply orb_false_iff in Hprop as [Hprop Hf].
  apply orb_false_iff in Hprop as [Hu Hn].
  unfold existsRepoWithProperty. rewrite Hrepos. cbn [bind repoProperties].
  now rewrite Hu, Hn, Hf.
Qed.

(** With no repo record the loop that holds the check of the property
    name never runs: the lookup returns the generic report over no
    candidates for every property name. *)
Lemma existsRepoWithProperty_no_repos (e : Env) (prop val : string) :
  getYumRepos e "/etc/yum.conf" = Ret [] ->
  existsRepoWithProperty prop val e
  = Ret (genericError ("Yum repo with given " +++ prop +++ " not found") val []).
Proof.
  intros Hrepos. unfold existsRepoWithProperty. rewrite Hrepos. reflexivity.
Qed.

(** ** The unit checks *)

Lemma genericError_not_pass (msg name : string) (actual : list string) :
  genericError msg name actual <> (0%Z, "").
Proof. unfold genericError. intros H. discriminate H. Qed.

Lemma serviceLoop_pass_iff (service state : string) (statuses names : list string) :
  forall i actualState,
    serviceLoop service state statuses i names actualState = Ret (0%Z, "")
    <-> exists j, nth_error names j = Some service
                  /\ nth_error statuses (i + j) = Some state.
Proof.
  induction names as [|srv rest IH]; intros i actualState; cbn [serviceLoop].
  - split.
    + intros H. unfold genericError in H. discriminate H.
    + intros (j & Hj & _). destruct j; discriminate.
  - destruct (String.eqb_spec service srv) as [<-|Hne]; cbn [andb].
    + destruct (Nat.ltb_spec i (List.length statuses)) as [Hlt|Hge].
      * unfold index.
        destruct (nth_error statuses i) as [st|] eqn:Hst;
          [|apply nth_error_None in Hst; lia].
        cbn [bind]. destruct (String.eqb_spec st state) as [->|Hst_ne].
        -- split; [intros _|reflexivity].
           exists 0. now rewrite Nat.add_0_r.
        -- rewrite IH. split.
           ++ intros (j & Hj & Hs). exists (S j). now rewrite Nat.add_succ_r.
           ++ intros (j & Hj & Hs). destruct j as [|j].
              ** rewrite Nat.add_0_r, Hst in Hs. now injection Hs.
              ** exists j. now rewrite Nat.add_succ_r in Hs.
      * rewrite IH. split.
        -- intros (j & Hj & Hs). exists (S j). now rewrite Nat.add_succ_r.
        -- intros (j & Hj & Hs). destruct j as [|j].
           ++ rewrite Nat.add_0_r in Hs.
              assert (nth_error statuses i <> None) by congruence.
              apply nth_error_Some in H. lia.
           ++ exists j. now rewrite Nat.add_succ_r in Hs.
    + rewrite IH. split.
      * intros (j & Hj & Hs). exists (S j). now rewrite Nat.add_succ_r.
      * intros (j & Hj & Hs). destruct j as [|j].
        -- cbn in Hj. congruence.
        -- exists j. now rewrite Nat.add_succ_r in Hs.
Qed.

(** C8.  When [systemctl] can be run, a unit check passes exactly when at
    some position of the [list-units] columns the name is the target and
    the state is the fixed literal: ["active"] in the active column for the
    active check, ["loaded"] in the load column for the loaded check.  So
    [systemctlActive "nginx.service"] returns [(0, "")] when the row of
    [nginx.service] has [active] in the state column. *)
Theorem systemctlService_pass_iff (e : Env) :
  systemctlExists e = true ->
  (forall service loaded,
      systemctlService service loaded e = Ret (0%Z, "")
      <-> exists i,
            nth_error (commandColumnNoHeader e 1
                         ["systemctl"; "--no-pager"; "list-units"]) i
            = Some service
            /\ nth_error (commandColumnNoHeader e (stateColumn loaded)
                            ["systemctl"; "--no-pager"; "list-units"]) i
               = Some (stateOf loaded))
  /\ (forall i,
        nth_error (commandColumnNoHeader e 1
                     ["systemctl"; "--no-pager"; "list-units"]) i
        = Some "nginx.service" ->
        nth_error (commandColumnNoHeader e 3
                     ["systemctl"; "--no-pager"; "list-units"]) i
        = Some "active" ->
        systemctlActive "nginx.service" e = Ret (0%Z, "")).
Proof.
  intros Hex.
  assert (Hiff : forall service loaded,
             systemctlService service loaded e = Ret (0%Z, "")
             <-> exists i,
                   nth_error (commandColumnNoHeader e 1
                                ["systemctl"; "--no-pager"; "list-units"]) i
                   = Some service
                   /\ nth_error (commandColumnNoHeader e (stateColumn loaded)
                                   ["systemctl"; "--no-pager"; "list-units"]) i
                      = Some (stateOf loaded)).
  { intros service loaded. unfold systemctlService, systemctlShouldExist.
    rewrite Hex. cbn [negb bind].
    rewrite serviceLoop_pass_iff. cbn [Nat.add].
    destruct loaded; reflexivity. }
  split; [exact Hiff|].
  intros i Hn Hs. apply (Hiff "nginx.service" false). now exists i.
Qed.

Lemma systemctlService_pass_iff_witness :
  systemctlActive "nginx.service" unitHost = Ret (0%Z, "")
  /\ (systemctlService "sshd.service" false unitHost = Ret (0%Z, "")
      <-> exists i,
            nth_error (commandColumnNoHeader unitHost 1
                         ["systemctl"; "--no-pager"; "list-units"]) i
            = Some "sshd.service"
            /\ nth_error (commandColumnNoHeader unitHost (stateColumn false)
                            ["systemctl"; "--no-pager"; "list-units"]) i
               = Some (stateOf false)).
Proof.
  split.
  - apply (proj2 (systemctlService_pass_iff unitHost eq_refl) 1); reflexivity.
  - apply (proj1 (systemctlService_pass_iff unitHost eq_refl)).
Defined.

(** ** The unit-file status check *)

(** C10.  For every unit and status, when the unit-name column or the
    status column of [list-unit-files] has fewer than two entries (as on
    empty output), the check panics on the slice that drops the last two
    entries and returns no pair. *)
Theorem systemctlUnitFileStatus_short_columns_panic (e : Env) (unit status : string) :
  List.length (commandColumnNoHeader e 0
                 ["systemctl"; "--no-pager"; "list-unit-files"]) < 2
  \/ List.length (commandColumnNoHeader e 1
                    ["systemctl"; "--no-pager"; "list-unit-files"]) < 2 ->
  systemctlUnitFileStatus unit status e = Panic "slice bounds out of range".
Proof.
  intros Hshort. unfold systemctlUnitFileStatus, getUnitFilesWithStatuses.
  set (units := commandColumnNoHeader e 0 _) in *.
  set (statuses := commandColumnNoHeader e 1 _) in *.
  unfold sliceTo.
  destruct (Z.ltb_spec (Z.of_nat (List.length units) - 2) 0) as [Hu|Hu];
    cbn [orb]; [reflexivity|].
  destruct (Z.ltb_spec (Z.of_nat (List.length units))
              (Z.of_nat (List.length units) - 2)) as [Hu'|Hu']; [lia|].
  cbn [bind].
  destruct (Z.ltb_spec (Z.of_nat (List.length statuses) - 2) 0) as [Hs|Hs];
    cbn [orb]; [reflexivity|].
  lia.
Qed.

Lemma systemctlUnitFileStatus_short_columns_panic_witness :
  systemctlUnitFileStatus "sshd.service" "enabled" bareHost
  = Panic "slice bounds out of range".
Proof.
  apply (systemctlUnitFileStatus_short_columns_panic bareHost
           "sshd.service" "enabled").
  left. cbn. lia.
Defined.

(** ** The shape of every result *)

Lemma ppaLoop_shape (e : Env) (name : string) (all rest : list string) :
  ppaLoop e name all rest = (0%Z, "")
  \/ (exists ppa, ppaLoop e name all rest = (1%Z, "PPA URL invalid: " +++ ppa))
  \/ ppaLoop e name all rest = genericError "PPA not found" name all.
Proof.
  induction rest as [|p rest IH]; cbn [ppaLoop].
  - right; right; reflexivity.
  - destruct (validURL e p); cbn [negb].
    + destruct (Contains p name); [left; reflexivity | exact IH].
    + right; left. now exists p.
Qed.

Lemma serviceLoop_shape (service state : string) (statuses names : list string) :
  forall i actualState r,
    serviceLoop service state statuses i names actualState = Ret r ->
    r = (0%Z, "")
    \/ exists candidates,
         r = genericError "Service did not have state" state candidates.
Proof.
  induction names as [|srv rest IH]; intros i actualState r; cbn [serviceLoop].
  - intros H. injection H as <-. right. now eexists.
  - destruct (String.eqb service srv && Nat.ltb i (List.length statuses)).
    + destruct (index statuses i) as [st| |]; cbn [bind]; try discriminate.
      destruct (String.eqb st state); [|apply IH].
      intros H. injection H as <-. now left.
    + apply IH.
Qed.

Lemma unitFileLoop_shape (unit status : string) (statuses units : list string) :
  forall i actualStatus r,
    unitFileLoop unit status statuses i units actualStatus = Ret r ->
    r = (0%Z, "")
    \/ exists candidates,
         r = genericError "Unit didn't have status" status candidates.
Proof.
  induction units as [|un rest IH]; intros i actualStatus r; cbn [unitFileLoop].
  - intros H. injection H as <-. right. now eexists.
  - destruct (String.eqb un unit); [|apply IH].
    destruct (index statuses i) as [st| |]; cbn [bind]; try discriminate.
    destruct (String.eqb st status); [|apply IH].
    intros H. injection H as <-. now left.
Qed.

Lemma generic_failure (c : Check) (label expected : string)
  (candidates : list string) (code : Z) (msg : string) :
  report c = Some (label, expected) ->
  match c with CheckInstalled _ _ | CheckPPA _ => False | _ => True end ->
  (code, msg) = genericError label expected candidates ->
  (code = 0%Z /\ msg = "")
  \/ (code = 1%Z /\ msg <> "" /\ failureMessage c msg).
Proof.
  intros Hrep Hc Heq. right.
  assert (Hcode : code = 1%Z) by (now injection Heq).
  assert (Hmsg : msg = snd (genericError label expected candidates))
    by (now rewrite <- Heq).
  split; [exact Hcode|]. split.
  - rewrite Hmsg. apply genericError_nonempty.
  - subst code.
    destruct c; try contradiction; cbn [failureMessage];
      exists label, expected, candidates; (split; [exact Hrep | exact Heq]).
Qed.

Ltac pass := left; split; reflexivity.

Ltac generic_report :=
  match goal with
  | |- (1%Z = 0%Z /\ _) \/ _ =>
      eapply generic_failure; [reflexivity | exact I | reflexivity]
  end.

(** C1 (as amended).  For every check of the catalog, a result is either
    [(0, "")] or code 1 with a non-empty message; the message is the report
    of the generic mismatch reporter for the check's label, its expected
    value and some candidates, except for the package-installed check,
    whose failure names the package and the manager in a message of its
    own, and for the PPA check, which also fails with
    ["PPA URL invalid: " + entry]. *)
Theorem checks_result_shape (e : Env) (c : Check) (code : Z) (msg : string) :
  run c e = Ret (code, msg) ->
  (code = 0%Z /\ msg = "")
  \/ (code = 1%Z /\ msg <> "" /\ failureMessage c msg).
Proof.
  destruct c; cbn [run].
  - unfold Installed. destruct (getManager e keys) as [name| |]; cbn [bind];
      try discriminate.
    destruct (Contains _ pkg); intros H; injection H as <- <-; [pass|].
    right. split; [reflexivity|]. split; [discriminate|]. now exists name.
  - unfold PPA. intros H. injection H as H.
    destruct (ppaLoop_shape e name (getPPAs e "/etc/apt/sources.list")
                (getPPAs e "/etc/apt/sources.list")) as [Hp|[[ppa Hp]|Hp]];
      rewrite Hp in H; injection H as <- <-.
    + pass.
    + right. split; [reflexivity|]. split; [discriminate|]. left. now exists ppa.
    + right. split; [reflexivity|]. split.
      * apply (genericError_nonempty "PPA not found").
      * right. now eexists.
  - unfold YumRepoExists, existsRepoWithProperty.
    destruct (getYumRepos e _) as [repos| |]; cbn [bind]; try discriminate.
    destruct (repoProperties _ repos []) as [props| |]; cbn [bind]; try discriminate.
    destruct (strIn name props); intros H; injection H as <- <-;
      [pass | generic_report].
  - unfold YumRepoURL, existsRepoWithProperty.
    destruct (getYumRepos e _) as [repos| |]; cbn [bind]; try discriminate.
    destruct (repoProperties _ repos []) as [props| |]; cbn [bind]; try discriminate.
    destruct (strIn urlstr props); intros H; injection H as <- <-;
      [pass | generic_report].
  - unfold pacmanIgnore.
    destruct (negb (String.eqb _ "")).
    + destruct (Nat.ltb 2 _).
      * destruct (sliceFrom _ 2) as [packages| |]; cbn [bind]; try discriminate.
        destruct (strIn pkg packages); intros H; injection H as <- <-;
          [pass | generic_report].
      * intros H; injection H as <- <-. generic_report.
    + intros H; injection H as <- <-. generic_report.
  - unfold systemctlLoaded, systemctlService.
    destruct (systemctlShouldExist e); cbn [bind]; try discriminate.
    intros H. apply serviceLoop_shape in H as [H|[candidates H]].
    + injection H as -> ->. pass.
    + eapply generic_failure; [reflexivity | exact I | exact H].
  - unfold systemctlActive, systemctlService.
    destruct (systemctlShouldExist e); cbn [bind]; try discriminate.
    intros H. apply serviceLoop_shape in H as [H|[candidates H]].
    + injection H as -> ->. pass.
    + eapply generic_failure; [reflexivity | exact I | exact H].
  - unfold systemctlSockPath, systemctlSock.
    destruct (systemctlShouldExist e); cbn [bind]; try discriminate.
    destruct (strIn path _); intros H; injection H as <- <-;
      [pass | generic_report].
  - unfold systemctlSockUnit, systemctlSock.
    destruct (systemctlShouldExist e); cbn [bind]; try discriminate.
    destruct (strIn name _); intros H; injection H as <- <-;
      [pass | generic_report].
  - unfold systemctlTimer, timersThunk.
    destruct (getTimers e false) as [timers| |]; cbn [bind]; try discriminate.
    destruct (strIn unit timers); intros H; injection H as <- <-;
      [pass | generic_report].
  - unfold systemctlTimerLoaded, timersThunk.
    destruct (getTimers e true) as [timers| |]; cbn [bind]; try discriminate.
    destruct (strIn unit timers); intros H; injection H as <- <-;
      [pass | generic_report].
  - unfold systemctlUnitFileStatus.
    destruct (getUnitFilesWithStatuses e) as [[units statuses]| |]; cbn [bind];
      try discriminate.
    intros H. apply unitFileLoop_shape in H as [H|[candidates H]].
    + injection H as -> ->. pass.
    + eapply generic_failure; [reflexivity | exact I | exact H].
Qed.

Lemma checks_result_shape_witness :
  (1%Z = 0%Z /\ "PPA URL invalid: http://ppa.launchpad.net/%zz/ubuntu" = "")
  \/ (1%Z = 1%Z
      /\ "PPA URL invalid: http://ppa.launchpad.net/%zz/ubuntu" <> ""
      /\ failureMessage (CheckPPA "neovim")
           "PPA URL invalid: http://ppa.launchpad.net/%zz/ubuntu").
Proof.
  apply (checks_result_shape aptHost (CheckPPA "neovim")).
  reflexivity.
Defined.

(** C1 (as stated) fails on the package-installed check: on a host where
    [rpm] is selected and does not know [emacs], the failure of the check
    is the report of the generic mismatch reporter for no label, expected
    value and candidates. *)
Lemma Installed_failure_not_generic :
  run (CheckInstalled ["dpkg"; "rpm"; "pacman"] "emacs") rpmHost
  = Ret (1%Z, "Package was not found:" +++ NLTAB +++ "Package name: emacs"
              +++ NLTAB +++ "Package manager: rpm")
  /\ forall label expected candidates,
       genericError label expected candidates
       <> (1%Z, "Package was not found:" +++ NLTAB +++ "Package name: emacs"
                +++ NLTAB +++ "Package manager: rpm").
Proof.
  split; [reflexivity|].
  intros label expected candidates H.
  pose proof (genericError_mentions_expected label expected candidates) as Hm.
  rewrite H in Hm. vm_compute in Hm. discriminate Hm.
Qed.

(** ** The matcher against the pattern it runs *)

Lemma append_assoc (a b c : string) : (a +++ b) +++ c = a +++ b +++ c.
Proof. induction a as [|x a IH]; simpl; [reflexivity | now rewrite IH]. Qed.

Lemma append_nil_r (a : string) : a +++ "" = a.
Proof. induction a as [|x a IH]; simpl; [reflexivity | now rewrite IH]. Qed.

Lemma length_append (a b : string) :
  String.length (a +++ b) = String.length a + String.length b.
Proof. induction a as [|x a IH]; simpl; [reflexivity | now rewrite IH]. Qed.

Lemma substring_prefix (m rest : string) :
  String.substring 0 (String.length m) (m +++ rest) = m.
Proof.
  induction m as [|x m IH]; simpl.
  - destruct rest; reflexivity.
  - now rewrite IH.
Qed.

Lemma matchStar_inv (p : ascii -> bool) (k : string -> option nat) (s : string) :
  forall n, matchStar p k s = Some n ->
    exists run t j,
      s = run +++ t /\ stringForall p run = true /\ k t = Some j
      /\ n = String.length run + j.
Proof.
  induction s as [|c s IH]; intros n; cbn [matchStar].
  - intros H. exists "", "", n. auto.
  - destruct (p c) eqn:Hc.
    + destruct (matchStar p k s) as [n0|] eqn:Hs.
      * intros H. injection H as <-.
        destruct (IH n0 eq_refl) as (run & t & j & -> & Hrun & Hk & ->).
        exists (String c run), t, j. cbn. rewrite Hc, Hrun. auto.
      * intros H. exists "", (String c s), n. auto.
    + intros H. exists "", (String c s), n. auto.
Qed.

Lemma matchAt_sound (re : list atom) :
  forall s n, matchAt re s = Some n ->
    exists m rest, s = m +++ rest /\ String.length m = n /\ Matches re m.
Proof.
  induction re as [|a re IH]; intros s n; cbn [matchAt].
  - intros H. injection H as <-. exists "", s. repeat split. constructor.
  - destruct a as [p|p|p].
    + destruct s as [|c s]; [discriminate|].
      destruct (p c) eqn:Hc; [|discriminate].
      destruct (matchAt re s) as [n0|] eqn:Hs; [|discriminate].
      intros H. injection H as <-.
      destruct (IH s n0 Hs) as (m & rest & -> & <- & Hm).
      exists (String c m), rest. repeat split. now constructor.
    + unfold matchPlus. destruct s as [|c s]; [discriminate|].
      destruct (p c) eqn:Hc; [|discriminate].
      destruct (matchStar p (matchAt re) s) as [n0|] eqn:Hs; [|discriminate].
      intros H. injection H as <-.
      destruct (matchStar_inv _ _ _ _ Hs) as (run & t & j & -> & Hrun & Hk & ->).
      destruct (IH t j Hk) as (m & rest & -> & <- & Hm).
      exists (String c run +++ m), rest. repeat split.
      * cbn. now rewrite append_assoc.
      * cbn. now rewrite length_append.
      * constructor; [discriminate | cbn; now rewrite Hc | exact Hm].
    + intros H.
      destruct (matchStar_inv _ _ _ _ H) as (run & t & j & -> & Hrun & Hk & ->).
      destruct (IH t j Hk) as (m & rest & -> & <- & Hm).
      exists (run +++ m), rest. repeat split.
      * now rewrite append_assoc.
      * now rewrite length_append.
      * now constructor.
Qed.

Lemma matchStar_complete (p : ascii -> bool) (k : string -> option nat) (t : string) :
  k t <> None ->
  forall run, stringForall p run = true -> matchStar p k (run +++ t) <> None.
Proof.
  intros Hk run. induction run as [|c run IH]; intros Hrun.
  - cbn [String.append]. destruct t as [|c t]; cbn [matchStar]; [exact Hk|].
    destruct (p c); [|exact Hk].
    destruct (matchStar p k t); [discriminate | exact Hk].
  - cbn in Hrun. apply andb_true_iff in Hrun as [Hc Hrun].
    cbn [String.append matchStar]. rewrite Hc.
    destruct (matchStar p k (run +++ t)) eqn:E; [discriminate|].
    now elim (IH Hrun).
Qed.

Lemma matchAt_complete (re : list atom) (m : string) :
  Matches re m -> forall rest, matchAt re (m +++ rest) <> None.
Proof.
  induction 1 as [|p re c s Hc _ IH|p re run s Hne Hrun _ IH|p re run s Hrun _ IH];
    intros rest; cbn [matchAt].
  - discriminate.
  - cbn [String.append]. rewrite Hc.
    destruct (matchAt re (s +++ rest)) eqn:E; [discriminate | now elim (IH rest)].
  - destruct run as [|c run]; [contradiction|].
    cbn in Hrun. apply andb_true_iff in Hrun as [Hc Hrun].
    rewrite append_assoc. cbn [String.append]. unfold matchPlus. rewrite Hc.
    destruct (matchStar p (matchAt re) (run +++ s +++ rest)) eqn:E; [discriminate|].
    now elim (matchStar_complete p (matchAt re) (s +++ rest) (IH rest) run Hrun).
  - rewrite append_assoc. now apply matchStar_complete.
Qed.

Lemma MatchString_iff (re : list atom) (s : string) :
  MatchString re s = true <-> exists m rest, s = m +++ rest /\ Matches re m.
Proof.
  unfold MatchString. split.
  - destruct (matchAt re s) as [n|] eqn:E; [|discriminate]. intros _.
    destruct (matchAt_sound re s n E) as (m & rest & -> & _ & Hm). now exists m, rest.
  - intros (m & rest & -> & Hm).
    destruct (matchAt re (m +++ rest)) eqn:E; [reflexivity|].
    now elim (matchAt_complete re m Hm rest).
Qed.

(** ** Comment lines *)

(** The comment pattern matches a string exactly when the first byte after
    its leading white space is [#]. *)
Lemma comment_iff_hash_after_blanks (line : string) :
  MatchString commentRegex line = true
  <-> exists blanks rest,
        line = blanks +++ "#" +++ rest /\ stringForall isSpace blanks = true.
Proof.
  rewrite MatchString_iff. split.
  - intros (m & rest & -> & Hm).
    change commentRegex with [Star isSpace; One (Ascii.eqb "#"); Star isDot] in Hm.
    inversion Hm as [| | |p re run s1 Hrun Hs1]; subst.
    inversion Hs1 as [|p re c s2 Hc Hs2| |]; subst.
    apply Ascii.eqb_eq in Hc. subst c.
    exists run, (s2 +++ rest). split; [|exact Hrun].
    rewrite append_assoc. reflexivity.
  - intros (blanks & rest & -> & Hb).
    exists (blanks +++ "#"), rest. split.
    + now rewrite append_assoc.
    + change commentRegex with [Star isSpace; One (Ascii.eqb "#"); Star isDot].
      constructor; [exact Hb|].
      constructor; [reflexivity|].
      apply (Matches_Star isDot [] "" ""); [reflexivity | constructor].
Qed.

(** ** The readers of the apt and the yum files *)

Lemma getAptSourcesFrom_In (split : list (list string)) (u : string) :
  In u (getAptSourcesFrom split)
  <-> exists first rest,
        In (first :: u :: rest) split /\ MatchString commentRegex first = false.
Proof.
  induction split as [|line split IH]; cbn [getAptSourcesFrom].
  - split; [contradiction | intros (? & ? & [] & _)].
  - destruct line as [|first [|second rest]].
    + rewrite IH. split.
      * intros (f & r & Hin & Hc). exists f, r. split; [now right | exact Hc].
      * intros (f & r & [Heq|Hin] & Hc); [discriminate | now exists f, r].
    + rewrite IH. split.
      * intros (f & r & Hin & Hc). exists f, r. split; [now right | exact Hc].
      * intros (f & r & [Heq|Hin] & Hc); [discriminate | now exists f, r].
    + destruct (MatchString commentRegex first) eqn:Hm; cbn [negb].
      * rewrite IH. split.
        -- intros (f & r & Hin & Hc). exists f, r. split; [now right | exact Hc].
        -- intros (f & r & [Heq|Hin] & Hc); [|now exists f, r].
           injection Heq as <- <- <-. congruence.
      * cbn [In]. rewrite IH. split.
        -- intros [<-|(f & r & Hin & Hc)].
           ++ exists first, rest. split; [now left | exact Hm].
           ++ exists f, r. split; [now right | exact Hc].
        -- intros (f & r & [Heq|Hin] & Hc).
           ++ injection Heq as <- <- <-. now left.
           ++ right. now exists f, r.
Qed.

(** X1.  The apt reader tests the first token of a line, not the line: it
    returns the second token of every line that has at least two tokens
    and whose first token does not start, after leading white space, with
    [#], and nothing else; a [#] further on in the line does not drop
    it. *)
Theorem getAptSources_In (e : Env) (path u : string) :
  In u (getAptSources e path)
  <-> exists first rest,
        In (first :: u :: rest) (stringToSlice e (fileToString e path))
        /\ ~ (exists blanks tail,
                first = blanks +++ "#" +++ tail
                /\ stringForall isSpace blanks = true).
Proof.
  unfold getAptSources. rewrite getAptSourcesFrom_In.
  split; intros (first & rest & Hin & Hc); exists first, rest; (split; [exact Hin|]).
  - intros Hhash. apply comment_iff_hash_after_blanks in Hhash. congruence.
  - destruct (MatchString commentRegex first) eqn:Hm; [|reflexivity].
    elim Hc. now apply comment_iff_hash_after_blanks.
Qed.

(** X2.  The PPA candidates are exactly the second tokens that contain
    ["ppa"] of the lines of the apt sources file that have at least two
    tokens and whose first token is no comment; a shorter line gives
    nothing. *)
Theorem getPPAs_In (e : Env) (path u : string) :
  In u (getPPAs e path)
  <-> Contains u "ppa" = true
      /\ exists first rest,
           In (first :: u :: rest) (stringToSlice e (fileToString e path))
           /\ MatchString commentRegex first = false.
Proof.
  unfold getPPAs, getAptSources. rewrite filter_In, getAptSourcesFrom_In.
  tauto.
Qed.

Lemma prefix_split (p : string) :
  forall l, String.prefix p l = true -> exists t, l = p +++ t.
Proof.
  induction p as [|c p IH]; intros l H.
  - now exists l.
  - destruct l as [|c' l]; [discriminate|]. cbn in H.
    destruct (ascii_dec c c') as [<-|]; [|discriminate].
    destruct (IH l H) as [t ->]. now exists t.
Qed.

Lemma substring_skip (p t : string) (m : nat) :
  String.substring (String.length p) m (p +++ t) = String.substring 0 m t.
Proof. induction p as [|c p IH]; [reflexivity | exact IH]. Qed.

Lemma TrimPrefix_append (p t : string) : TrimPrefix (p +++ t) p = t.
Proof.
  unfold TrimPrefix. rewrite prefix_append, substring_skip, length_append.
  replace (String.length p + String.length t - String.length p)
    with (String.length t) by lia.
  rewrite <- (append_nil_r t) at 2. apply substring_prefix.
Qed.

Lemma TrimPrefix_changes (p l : string) :
  p <> "" -> String.prefix p l = true -> String.eqb (TrimPrefix l p) l = false.
Proof.
  intros Hp Hl. destruct (prefix_split p l Hl) as [t ->].
  rewrite TrimPrefix_append. apply String.eqb_neq. intros Heq.
  apply (f_equal String.length) in Heq. rewrite length_append in Heq.
  destruct p; [contradiction | cbn in Heq; lia].
Qed.

Lemma valuesOf_In (p v : string) (lines : list string) :
  In v (valuesOf p lines) <-> In (p +++ v) lines.
Proof.
  unfold valuesOf. rewrite in_flat_map. split.
  - intros (line & Hin & Hv).
    destruct (String.prefix p line) eqn:Hp; [|contradiction].
    destruct (prefix_split p line Hp) as [t ->].
    rewrite TrimPrefix_append in Hv. destruct Hv as [<-|[]]. exact Hin.
  - intros Hin. exists (p +++ v). split; [exact Hin|].
    rewrite prefix_append, TrimPrefix_append. now left.
Qed.

Lemma name_line_facts (line : string) :
  String.prefix "name=" line = true ->
  MatchString commentRegex line = false
  /\ String.prefix "baseurl=" line = false.
Proof.
  intros H. destruct (prefix_split _ _ H) as [t ->]. split; reflexivity.
Qed.

Lemma baseurl_line_facts (line : string) :
  String.prefix "baseurl=" line = true ->
  MatchString commentRegex line = false.
Proof.
  intros H. destruct (prefix_split _ _ H) as [t ->]. reflexivity.
Qed.

Lemma yumColumns_values (lines : list string) :
  forall fullNames urls,
    yumColumns lines fullNames urls
    = (fullNames ++ valuesOf "name=" lines, urls ++ valuesOf "baseurl=" lines).
Proof.
  induction lines as [|line lines IH]; intros fullNames urls.
  - cbn. now rewrite !app_nil_r.
  - cbn [yumColumns]. unfold valuesOf. cbn [flat_map]. fold (valuesOf "name=" lines).
    fold (valuesOf "baseurl=" lines).
    destruct (String.prefix "name=" line) eqn:Hn.
    + destruct (name_line_facts line Hn) as [Hc Hu]. rewrite Hc, Hu. cbn [negb].
      rewrite (TrimPrefix_changes "name=" line) by (discriminate || assumption).
      cbn [negb app]. rewrite IH, <- app_assoc. reflexivity.
    + destruct (String.prefix "baseurl=" line) eqn:Hu.
      * rewrite (baseurl_line_facts line Hu). cbn [negb].
        replace (TrimPrefix line "name=") with line
          by (unfold TrimPrefix; now rewrite Hn).
        rewrite String.eqb_refl. cbn [negb].
        rewrite (TrimPrefix_changes "baseurl=" line) by (discriminate || assumption).
        cbn [negb app]. rewrite IH, <- app_assoc. reflexivity.
      * cbn [app].
        replace (TrimPrefix line "name=") with line
          by (unfold TrimPrefix; now rewrite Hn).
        replace (TrimPrefix line "baseurl=") with line
          by (unfold TrimPrefix; now rewrite Hu).
        rewrite String.eqb_refl. cbn [negb].
        destruct (negb (MatchString commentRegex line)); apply IH.
Qed.

(** X3.  The two columns read from yum.conf are the values of the lines
    that start with [name=] and of the lines that start with [baseurl=],
    each in file order with the prefix removed; such a line is never a
    comment and never feeds both columns, so a value is in a column
    exactly when the file has the line made of the prefix and the value. *)
Theorem yumColumns_prefixed_lines (lines : list string) :
  yumColumns lines [] [] = (valuesOf "name=" lines, valuesOf "baseurl=" lines)
  /\ (forall fullName,
        In fullName (fst (yumColumns lines [] []))
        <-> In ("name=" +++ fullName) lines)
  /\ (forall url,
        In url (snd (yumColumns lines [] []))
        <-> In ("baseurl=" +++ url) lines).
Proof.
  rewrite yumColumns_values. cbn [app fst snd].
  split; [reflexivity|]. split; intros v; apply valuesOf_In.
Qed.

(** ** The repo records *)

Lemma assemble_combine (fullNames urls : list string) :
  assemble fullNames urls = Ret (map repoOf (combine fullNames urls)).
Proof.
  unfold assemble.
  replace (List.length (if Nat.ltb (List.length urls) (List.length fullNames)
                        then urls else fullNames))
    with (List.length (combine fullNames urls)).
  - rewrite yumZip_seq by lia. cbn [skipn app]. now rewrite firstn_all.
  - rewrite length_combine.
    destruct (Nat.ltb_spec (List.length urls) (List.length fullNames)); lia.
Qed.

Lemma stringForall_append (p : ascii -> bool) (a b : string) :
  stringForall p (a +++ b) = stringForall p a && stringForall p b.
Proof.
  induction a as [|c a IH]; cbn; [reflexivity|].
  now rewrite IH, andb_assoc.
Qed.

Lemma SplitRuns_no_space (s : string) :
  forall inRun cur,
    stringForall (fun c => negb (isSpace c)) cur = true ->
    Forall (fun piece => stringForall (fun c => negb (isSpace c)) piece = true)
      (SplitRuns inRun cur s).
Proof.
  induction s as [|c s IH]; intros inRun cur Hcur; cbn [SplitRuns].
  - now constructor.
  - destruct (isSpace c) eqn:Hc.
    + destruct inRun; [now apply IH|].
      constructor; [exact Hcur | now apply IH].
    + apply IH. rewrite stringForall_append, Hcur. cbn. now rewrite Hc.
Qed.

Lemma last_cons_nonempty {A : Type} (a d : A) (l : list A) :
  l <> [] -> last (a :: l) d = last l d.
Proof. destruct l; [contradiction | reflexivity]. Qed.

Lemma Forall_last {A : Type} (P : A -> Prop) (l : list A) (d : A) :
  Forall P l -> l <> [] -> P (last l d).
Proof.
  induction 1 as [|a l Ha Hl IH]; intros Hne; [contradiction|].
  destruct l as [|b l]; [exact Ha|].
  rewrite last_cons_nonempty by discriminate. apply IH. discriminate.
Qed.

Lemma SplitRuns_last_suffix (s : string) :
  forall inRun cur,
    (inRun = true -> cur = "") ->
    exists pre, cur +++ s = pre +++ last (SplitRuns inRun cur s) "".
Proof.
  induction s as [|c s IH]; intros inRun cur Hrun; cbn [SplitRuns].
  - exists "". cbn. apply append_nil_r.
  - destruct (isSpace c).
    + destruct inRun.
      * rewrite (Hrun eq_refl).
        destruct (IH true "" (fun _ => eq_refl)) as [pre Hpre].
        exists (String c pre). cbn [String.append] in *. f_equal. exact Hpre.
      * rewrite last_cons_nonempty by apply SplitRuns_nonempty.
        destruct (IH true "" (fun _ => eq_refl)) as [pre Hpre].
        exists (cur +++ String c pre). cbn [String.append] in Hpre.
        rewrite append_assoc. cbn [String.append]. do 2 f_equal. exact Hpre.
    + destruct (IH false (cur +++ String c "") (fun H => False_ind _ (diff_false_true H)))
        as [pre Hpre].
      exists pre. rewrite <- Hpre, append_assoc. reflexivity.
Qed.

Lemma getYumRepos_returns (e : Env) (path : string) :
  getYumRepos e path
  = Ret (map repoOf (combine (fst (yumColumns (fileToLines e path) [] []))
                             (snd (yumColumns (fileToLines e path) [] [])))).
Proof.
  unfold getYumRepos.
  destruct (yumColumns (fileToLines e path) [] []) as [fullNames urls].
  apply assemble_combine.
Qed.

(** X4.  Reading the yum repos always returns: no line of the file makes
    it panic or end the process.  In every record the short name holds no
    white-space byte and is the end of the full name. *)
Theorem getYumRepos_records (e : Env) (path : string) :
  exists repos,
    getYumRepos e path = Ret repos
    /\ Forall (fun repo =>
                 stringForall (fun c => negb (isSpace c)) (Name repo) = true
                 /\ exists pre, Fullname repo = pre +++ Name repo) repos.
Proof.
  unfold getYumRepos.
  destruct (yumColumns (fileToLines e path) [] []) as [fullNames urls].
  rewrite assemble_combine. eexists. split; [reflexivity|].
  apply Forall_forall. intros repo Hin. apply in_map_iff in Hin as ([f u] & <- & _).
  unfold repoOf. cbn [Name Fullname fst]. split.
  - apply Forall_last; [|apply SplitRuns_nonempty].
    now apply SplitRuns_no_space.
  - destruct (SplitRuns_last_suffix f false "") as [pre Hpre]; [discriminate|].
    exists pre. exact Hpre.
Qed.

Lemma strIn_In (s : string) (slice : list string) :
  strIn s slice = true <-> In s slice.
Proof.
  unfold strIn. rewrite existsb_exists. split.
  - intros (x & Hin & Heq). apply String.eqb_eq in Heq. now subst.
  - intros Hin. exists s. split; [exact Hin | apply String.eqb_refl].
Qed.

Lemma repoProperties_Name (repos : list YumRepo) :
  forall properties,
    repoProperties "Name" repos properties = Ret (properties ++ map Name repos).
Proof.
  induction repos as [|repo repos IH]; intros properties; cbn [repoProperties map].
  - now rewrite app_nil_r.
  - change (String.eqb "Name" "Url") with false.
    change (String.eqb "Name" "Name") with true. cbn iota.
    rewrite IH, <- app_assoc. reflexivity.
Qed.

Lemma repoProperties_Url (repos : list YumRepo) :
  forall properties,
    repoProperties "Url" repos properties = Ret (properties ++ map Url repos).
Proof.
  induction repos as [|repo repos IH]; intros properties; cbn [repoProperties map].
  - now rewrite app_nil_r.
  - change (String.eqb "Url" "Url") with true. cbn iota.
    rewrite IH, <- app_assoc. reflexivity.
Qed.

(** X5.  The check of a yum repo by name passes exactly when some record
    read from /etc/yum.conf has the target as its short name, and the
    check by URL exactly when some record has it as its url; a failing
    check reports the names, or the urls, of all records. *)
Theorem YumRepo_checks_membership (e : Env) (val : string) :
  exists repos,
    getYumRepos e "/etc/yum.conf" = Ret repos
    /\ (YumRepoExists val e = Ret (0%Z, "") <-> In val (map Name repos))
    /\ (~ In val (map Name repos) ->
        YumRepoExists val e
        = Ret (genericError "Yum repo with given Name not found" val
                 (map Name repos)))
    /\ (YumRepoURL val e = Ret (0%Z, "") <-> In val (map Url repos))
    /\ (~ In val (map Url repos) ->
        YumRepoURL val e
        = Ret (genericError "Yum repo with given Url not found" val
                 (map Url repos))).
Proof.
  pose proof (getYumRepos_returns e "/etc/yum.conf") as Hrepos.
  set (repos := map repoOf _) in Hrepos.
  exists repos. split; [exact Hrepos|].
  unfold YumRepoExists, YumRepoURL, existsRepoWithProperty.
  rewrite Hrepos. cbn [bind].
  rewrite repoProperties_Name, repoProperties_Url. cbn [bind app].
  repeat split.
  - destruct (strIn val (map Name repos)) eqn:E.
    + intros _. now apply strIn_In.
    + unfold genericError. discriminate.
  - intros Hin. apply strIn_In in Hin. now rewrite Hin.
  - intros Hnot. destruct (strIn val (map Name repos)) eqn:E; [|reflexivity].
    apply strIn_In in E. contradiction.
  - destruct (strIn val (map Url repos)) eqn:E.
    + intros _. now apply strIn_In.
    + unfold genericError. discriminate.
  - intros Hin. apply strIn_In in Hin. now rewrite Hin.
  - intros Hnot. destruct (strIn val (map Url repos)) eqn:E; [|reflexivity].
    apply strIn_In in E. contradiction.
Qed.

Lemma YumRepo_checks_membership_witness :
  exists repos,
    getYumRepos (fileHost fedoraLines "" [] (fun _ => true) (fun _ _ => []))
      "/etc/yum.conf" = Ret repos
    /\ (YumRepoExists "(updates)"
          (fileHost fedoraLines "" [] (fun _ => true) (fun _ _ => []))
        = Ret (0%Z, "") <-> In "(updates)" (map Name repos)).
Proof.
  destruct (YumRepo_checks_membership
              (fileHost fedoraLines "" [] (fun _ => true) (fun _ _ => []))
              "(updates)") as (repos & Hrepos & Hname & _).
  exists repos. split; [exact Hrepos | exact Hname].
Defined.

Lemma existsRepoWithProperty_unsupported_fatal_witness :
  existsRepoWithProperty "Baseurl" "https://example.com/updates"
    (fileHost fedoraLines "" [] (fun _ => true) (fun _ _ => []))
  = Fatal "Yum repos don't have the requested property: Baseurl".
Proof.
  apply (existsRepoWithProperty_unsupported_fatal
           (fileHost fedoraLines "" [] (fun _ => true) (fun _ _ => []))
           "Baseurl" "https://example.com/updates" fedoraRepo []);
    reflexivity.
Defined.

(** ** The pacman candidates *)

(** X7.  The pacman check never panics: the guard on the number of pieces
    covers the slice.  Its candidates are the pieces after the first two of
    the matched text split at single spaces (none when nothing matches or
    at most two pieces come out); it passes exactly when the package is
    one of them and otherwise reports them all. *)
Theorem pacmanIgnore_candidates (e : Env) (pkg : string) :
  pacmanIgnore pkg e
  = if strIn pkg
         (skipn 2 (Split (FindString ignorePkgRegex
                            (fileToString e "/etc/pacman.conf")) " "))
    then Ret (0%Z, "")
    else Ret (genericError "Couldn't find package in IgnorePkg" pkg
                (skipn 2 (Split (FindString ignorePkgRegex
                                   (fileToString e "/etc/pacman.conf")) " "))).
Proof.
  unfold pacmanIgnore.
  set (find := FindString ignorePkgRegex (fileToString e "/etc/pacman.conf")).
  destruct (String.eqb_spec find "") as [->|Hne]; cbn [negb]; [reflexivity|].
  destruct (Nat.ltb_spec 2 (List.length (Split find " "))) as [Hlt|Hge].
  - unfold sliceFrom.
    destruct (Nat.ltb_spec (List.length (Split find " ")) 2) as [Hlt2|_]; [lia|].
    cbn [bind]. reflexivity.
  - rewrite skipn_all2 by exact Hge. reflexivity.
Qed.

(** ** systemctl: the probe and the guards *)

(** X8.  When [systemctl --version] fails with an error that mentions
    ["not found in $PATH"], the loaded, active and socket checks end the
    process with ["Couldn't execute systemctl"] and read no column. *)
Theorem systemctl_missing_is_fatal (e : Env) (err : string) :
  snd (exec_CombinedOutput e ["systemctl"; "--version"]) = Some err ->
  Contains err "not found in $PATH" = true ->
  forall target flag,
    systemctlService target flag e = Fatal "Couldn't execute systemctl"
    /\ systemctlSock target flag e = Fatal "Couldn't execute systemctl".
Proof.
  intros Herr Hc target flag.
  unfold systemctlService, systemctlSock, systemctlShouldExist, systemctlExists.
  rewrite Herr, Hc. split; reflexivity.
Qed.

Lemma systemctl_missing_is_fatal_witness :
  systemctlService "nginx.service" false bareHost = Fatal "Couldn't execute systemctl"
  /\ systemctlSock "nginx.service" false bareHost = Fatal "Couldn't execute systemctl".
Proof.
  apply (systemctl_missing_is_fatal bareHost
           "exec: executable file not found in $PATH"); reflexivity.
Defined.

Lemma serviceLoop_no_panic (service state : string) (statuses names : list string) :
  forall i actualState reason,
    serviceLoop service state statuses i names actualState <> Panic reason.
Proof.
  induction names as [|srv rest IH]; intros i actualState reason; cbn [serviceLoop].
  - discriminate.
  - destruct (String.eqb service srv); cbn [andb]; [|apply IH].
    destruct (Nat.ltb_spec i (List.length statuses)) as [Hlt|Hge]; [|apply IH].
    unfold index. destruct (nth_error statuses i) as [st|] eqn:Hst.
    + cbn [bind]. destruct (String.eqb st state); [discriminate | apply IH].
    + apply nth_error_None in Hst. lia.
Qed.

(** X9.  The loaded and active checks never panic: the test
    [len(statuses) > i] covers the index into the state column, however
    the two columns differ in length. *)
Theorem systemctlService_never_panics (e : Env) (service : string)
  (loaded : bool) (reason : string) :
  systemctlService service loaded e <> Panic reason.
Proof.
  unfold systemctlService.
  destruct (systemctlShouldExist e) eqn:E; cbn [bind]; try discriminate.
  - apply serviceLoop_no_panic.
  - unfold systemctlShouldExist in E. destruct (negb (systemctlExists e)); discriminate.
Qed.

Lemma serviceLoop_absent (service state : string) (statuses names : list string) :
  ~ In service names ->
  forall i actualState,
    serviceLoop service state statuses i names actualState
    = Ret (genericError "Service did not have state" state [actualState]).
Proof.
  induction names as [|srv rest IH]; intros Hnot i actualState; cbn [serviceLoop].
  - reflexivity.
  - destruct (String.eqb_spec service srv) as [->|Hne].
    + elim Hnot. now left.
    + cbn [andb]. apply IH. intros Hin. apply Hnot. now right.
Qed.

(** X10.  When [systemctl] runs and the unit is in no row of the name
    column, the loaded and active checks fail with the generic report
    whose only candidate is the empty string. *)
Theorem systemctlService_unit_absent (e : Env) (service : string) (loaded : bool) :
  systemctlExists e = true ->
  ~ In service (commandColumnNoHeader e 1 ["systemctl"; "--no-pager"; "list-units"]) ->
  systemctlService service loaded e
  = Ret (genericError "Service did not have state" (stateOf loaded) [""]).
Proof.
  intros Hex Hnot. unfold systemctlService, systemctlShouldExist.
  rewrite Hex. cbn [negb bind].
  rewrite serviceLoop_absent by exact Hnot. now destruct loaded.
Qed.

Lemma systemctlService_unit_absent_witness :
  systemctlService "cron.service" true unitHost
  = Ret (genericError "Service did not have state" "loaded" [""]).
Proof.
  apply (systemctlService_unit_absent unitHost "cron.service" true).
  - reflexivity.
  - cbn. intros [H|[H|[]]]; discriminate H.
Defined.

(** X11.  When [systemctl] runs, a socket check passes exactly when the
    target is an entry of its column of [list-sockets] (column 0 by path,
    column 1 by unit), and a failing check reports the whole column. *)
Theorem systemctlSock_membership (e : Env) (value : string) (path : bool) :
  systemctlExists e = true ->
  (systemctlSock value path e = Ret (0%Z, "")
   <-> In value (commandColumnNoHeader e (if path then 0 else 1)
                   ["systemctl"; "list-sockets"]))
  /\ (~ In value (commandColumnNoHeader e (if path then 0 else 1)
                    ["systemctl"; "list-sockets"]) ->
      systemctlSock value path e
      = Ret (genericError "Socket not found" value
               (commandColumnNoHeader e (if path then 0 else 1)
                  ["systemctl"; "list-sockets"]))).
Proof.
  intros Hex. unfold systemctlSock, systemctlShouldExist.
  rewrite Hex. cbn [negb bind].
  destruct (strIn value _) eqn:E.
  - apply strIn_In in E. split; [tauto | contradiction].
  - assert (Hnot : ~ In value (commandColumnNoHeader e (if path then 0 else 1)
                                 ["systemctl"; "list-sockets"])).
    { intros Hin. apply strIn_In in Hin. congruence. }
    split; [|reflexivity].
    split; [unfold genericError; discriminate | contradiction].
Qed.

Lemma systemctlSock_membership_witness :
  systemctlSock "sshd.service" false unitHost = Ret (0%Z, "")
  <-> In "sshd.service"
        (commandColumnNoHeader unitHost 1 ["systemctl"; "list-sockets"]).
Proof.
  apply (systemctlSock_membership unitHost "sshd.service" false). reflexivity.
Defined.

(** ** The timer checks *)

Lemma Matches_lit (w : string) : forall s, Matches (lit w) s -> s = w.
Proof.
  induction w as [|c w IH]; intros s H.
  - now inversion H.
  - change (lit (String c w)) with (One (Ascii.eqb c) :: lit w) in H.
    inversion H as [|p re c' s' Hc Hs| |]; subst.
    apply Ascii.eqb_eq in Hc. subst c'. f_equal. now apply IH.
Qed.

Lemma FindAllFrom_In (re : list atom) (s : string) :
  forall skip m,
    In m (FindAllFrom re skip s) ->
    exists pre rest, s = pre +++ m +++ rest /\ Matches re m.
Proof.
  induction s as [|c s IH]; intros skip m; cbn [FindAllFrom]; [contradiction|].
  assert (Hlater : forall k, In m (FindAllFrom re k s) ->
                     exists pre rest, String c s = pre +++ m +++ rest /\ Matches re m).
  { intros k Hin. destruct (IH k m Hin) as (pre & rest & -> & Hm).
    now exists (String c pre), rest. }
  destruct skip as [|k]; [|apply Hlater].
  destruct (matchAt re (String c s)) as [[|n]|] eqn:E; try apply Hlater.
  intros [<-|Hin]; [|now apply (Hlater n)].
  destruct (matchAt_sound re _ _ E) as (m0 & rest & Heq & Hlen & Hm).
  rewrite Heq, <- Hlen, substring_prefix. now exists "", rest.
Qed.

(** X12.  A timer check ends the process when [systemctl list-timers]
    returns an error.  Otherwise it passes exactly when the target is one
    of the matches of the timer pattern in the output; so it can pass only
    for a target made of one or more letters, digits, underscores and
    hyphens followed by [.timer], and only if the output holds the
    target. *)
Theorem timersThunk_matches (e : Env) (unit : string) (all : bool) :
  (forall out err,
      exec_CombinedOutput e (timersCommand all) = (out, Some err) ->
      timersThunk unit all e
      = Fatal ("Couldn't execute `systemctl list-timers`:" +++ NLTAB +++ err))
  /\ (forall out,
        exec_CombinedOutput e (timersCommand all) = (out, None) ->
        (timersThunk unit all e = Ret (0%Z, "")
         <-> In unit (FindAllString timerRegex out))
        /\ (~ In unit (FindAllString timerRegex out) ->
            timersThunk unit all e
            = Ret (genericError "Timer not found" unit
                     (FindAllString timerRegex out))))
  /\ (timersThunk unit all e = Ret (0%Z, "") ->
      exists stem pre rest,
        unit = stem +++ ".timer" /\ stem <> ""
        /\ stringForall isTimerChar stem = true
        /\ fst (exec_CombinedOutput e (timersCommand all)) = pre +++ unit +++ rest).
Proof.
  unfold timersThunk, getTimers. fold (timersCommand all).
  destruct (exec_CombinedOutput e (timersCommand all)) as [out0 [err0|]].
  - split; [|split].
    + intros out err H. injection H as <- <-. reflexivity.
    + intros out H. discriminate H.
    + cbn [bind]. discriminate.
  - cbn [bind fst].
    assert (Hiff : strIn unit (FindAllString timerRegex out0) = true
                   <-> In unit (FindAllString timerRegex out0)) by apply strIn_In.
    split; [|split].
    + intros out err H. discriminate H.
    + intros out H. injection H as <-.
      destruct (strIn unit (FindAllString timerRegex out0)).
      * split; [tauto|]. intros Hnot. elim Hnot. now apply Hiff.
      * split; [|reflexivity].
        split; [unfold genericError; discriminate|].
        intros Hin. apply Hiff in Hin. discriminate Hin.
    + clear Hiff.
      destruct (strIn unit (FindAllString timerRegex out0)) eqn:E;
        [|unfold genericError; discriminate].
      intros _. apply strIn_In in E.
      destruct (FindAllFrom_In _ _ _ _ E) as (pre & rest & Hout & Hm).
      change timerRegex with (Plus isTimerChar :: lit ".timer") in Hm.
      inversion Hm as [| |p re run s1 Hne Hrun Hs1|]; subst.
      apply Matches_lit in Hs1. subst s1.
      exists run, pre, rest. auto.
Qed.

Lemma timersThunk_matches_witness :
  (timersThunk "logrotate.timer" false timerHost = Ret (0%Z, "")
   <-> In "logrotate.timer"
         (FindAllString timerRegex
            (fst (exec_CombinedOutput timerHost (timersCommand false)))))
  /\ exists stem pre rest,
       "logrotate.timer" = stem +++ ".timer" /\ stem <> ""
       /\ stringForall isTimerChar stem = true
       /\ fst (exec_CombinedOutput timerHost (timersCommand false))
          = pre +++ "logrotate.timer" +++ rest.
Proof.
  split.
  - apply (proj1 (proj2 (timersThunk_matches timerHost "logrotate.timer" false))
             (fst (exec_CombinedOutput timerHost (timersCommand false)))).
    reflexivity.
  - apply (proj2 (proj2 (timersThunk_matches timerHost "logrotate.timer" false))).
    reflexivity.
Defined.

(** ** The unit-file status check *)

Lemma unitFileLoop_pass_iff (unit status : string) (statuses units : list string) :
  forall i actualStatus,
    unitFileLoop unit status statuses i units actualStatus = Ret (0%Z, "")
    <-> exists j, nth_error units j = Some unit
                  /\ nth_error statuses (i + j) = Some status.
Proof.
  induction units as [|un rest IH]; intros i actualStatus; cbn [unitFileLoop].
  - split.
    + intros H. unfold genericError in H. discriminate H.
    + intros (j & Hj & _). destruct j; discriminate.
  - assert (Hshift : (exists j, nth_error rest j = Some unit
                                /\ nth_error statuses (S i + j) = Some status)
                     -> exists j, nth_error (un :: rest) j = Some unit
                                  /\ nth_error statuses (i + j) = Some status).
    { intros (j & Hj & Hs). exists (S j). now rewrite Nat.add_succ_r. }
    destruct (String.eqb_spec un unit) as [->|Hne].
    + unfold index. destruct (nth_error statuses i) as [st|] eqn:Hst; cbn [bind].
      * destruct (String.eqb_spec st status) as [->|Hst_ne].
        -- split; [intros _|reflexivity]. exists 0. now rewrite Nat.add_0_r.
        -- rewrite IH. split; [exact Hshift|].
           intros (j & Hj & Hs). destruct j as [|j].
           ++ rewrite Nat.add_0_r, Hst in Hs. now injection Hs.
           ++ exists j. now rewrite Nat.add_succ_r in Hs.
      * split; [discriminate|].
        intros (j & _ & Hs). apply nth_error_None in Hst.
        assert (nth_error statuses (i + j) <> None) by congruence.
        apply nth_error_Some in H. lia.
    + rewrite IH. split; [exact Hshift|].
      intros (j & Hj & Hs). destruct j as [|j].
      * cbn in Hj. congruence.
      * exists j. now rewrite Nat.add_succ_r in Hs.
Qed.

Lemma sliceTo_drop_two {A : Type} (l : list A) :
  2 <= List.length l ->
  sliceTo l (Z.of_nat (List.length l) - 2) = Ret (firstn (List.length l - 2) l).
Proof.
  intros Hlen. unfold sliceTo.
  destruct (Z.ltb_spec (Z.of_nat (List.length l) - 2) 0); [lia|].
  destruct (Z.ltb_spec (Z.of_nat (List.length l)) (Z.of_nat (List.length l) - 2));
    [lia|].
  cbn [orb]. do 2 f_equal. lia.
Qed.

Lemma sliceTo_short {A : Type} (l : list A) :
  List.length l < 2 ->
  sliceTo l (Z.of_nat (List.length l) - 2) = Panic "slice bounds out of range".
Proof.
  intros Hlen. unfold sliceTo.
  destruct (Z.ltb_spec (Z.of_nat (List.length l) - 2) 0); [reflexivity | lia].
Qed.

(** X13.  The unit-file status check passes exactly when, with the last
    two entries of each column of [list-unit-files] left out, some
    position holds the unit in the name column and the status in the
    status column; a unit named only in the last two entries never
    passes. *)
Theorem systemctlUnitFileStatus_pass_iff (e : Env) (unit status : string) :
  systemctlUnitFileStatus unit status e = Ret (0%Z, "")
  <-> exists i,
        nth_error
          (firstn (List.length (commandColumnNoHeader e 0
                                  ["systemctl"; "--no-pager"; "list-unit-files"]) - 2)
             (commandColumnNoHeader e 0
                ["systemctl"; "--no-pager"; "list-unit-files"])) i
        = Some unit
        /\ nth_error
             (firstn (List.length (commandColumnNoHeader e 1
                                     ["systemctl"; "--no-pager"; "list-unit-files"]) - 2)
                (commandColumnNoHeader e 1
                   ["systemctl"; "--no-pager"; "list-unit-files"])) i
           = Some status.
Proof.
  unfold systemctlUnitFileStatus, getUnitFilesWithStatuses.
  set (units := commandColumnNoHeader e 0 _).
  set (statuses := commandColumnNoHeader e 1 _).
  destruct (Nat.le_gt_cases 2 (List.length units)) as [Hu|Hu].
  - rewrite (sliceTo_drop_two units Hu). cbn [bind].
    destruct (Nat.le_gt_cases 2 (List.length statuses)) as [Hs|Hs].
    + rewrite (sliceTo_drop_two statuses Hs). cbn [bind].
      now rewrite unitFileLoop_pass_iff.
    + rewrite (sliceTo_short statuses Hs). cbn [bind].
      split; [discriminate|].
      intros (i & _ & Hi).
      replace (List.length statuses - 2) with 0 in Hi by lia.
      destruct i; discriminate Hi.
  - rewrite (sliceTo_short units Hu). cbn [bind].
    split; [discriminate|].
    intros (i & Hi & _).
    replace (List.length units - 2) with 0 in Hi by lia.
    destruct i; discriminate Hi.
Qed.

Lemma unitFileLoop_index_panic (unit status : string) (statuses : list string)
  (post : list string) :
  forall pre i actualStatus,
    ~ In unit pre ->
    List.length statuses <= i + List.length pre ->
    unitFileLoop unit status statuses i (pre ++ unit :: post) actualStatus
    = Panic "index out of range".
Proof.
  induction pre as [|un pre IH]; intros i actualStatus Hnot Hlen;
    cbn [app unitFileLoop].
  - rewrite String.eqb_refl. unfold index.
    destruct (nth_error statuses i) eqn:E; [|reflexivity].
    assert (nth_error statuses i <> None) by congruence.
    apply nth_error_Some in H. cbn in Hlen. lia.
  - destruct (String.eqb_spec un unit) as [->|Hne].
    + elim Hnot. now left.
    + apply IH.
      * intros Hin. apply Hnot. now right.
      * cbn in Hlen. lia.
Qed.

(** X14.  The unit-file status check has no test on the length of the
    status column: when both columns have two entries or more and the
    first row that names the unit, among the rows kept, lies at or past
    the end of the kept status column, the check panics on the index and
    returns no pair. *)
Theorem systemctlUnitFileStatus_index_panic (e : Env) (unit status : string)
  (pre post : list string) :
  2 <= List.length (commandColumnNoHeader e 1
                      ["systemctl"; "--no-pager"; "list-unit-files"]) ->
  firstn (List.length (commandColumnNoHeader e 0
                         ["systemctl"; "--no-pager"; "list-unit-files"]) - 2)
    (commandColumnNoHeader e 0 ["systemctl"; "--no-pager"; "list-unit-files"])
  = pre ++ unit :: post ->
  ~ In unit pre ->
  List.length (commandColumnNoHeader e 1
                 ["systemctl"; "--no-pager"; "list-unit-files"]) - 2
  <= List.length pre ->
  systemctlUnitFileStatus unit status e = Panic "index out of range".
Proof.
  unfold systemctlUnitFileStatus, getUnitFilesWithStatuses.
  set (units := commandColumnNoHeader e 0 _).
  set (statuses := commandColumnNoHeader e 1 _).
  intros Hs Hunits Hnot Hlen.
  assert (Hu : 2 <= List.length units).
  { destruct (Nat.le_gt_cases 2 (List.length units)) as [H|H]; [exact H|].
    replace (List.length units - 2) with 0 in Hunits by lia.
    destruct pre; discriminate Hunits. }
  rewrite (sliceTo_drop_two units Hu). cbn [bind].
  rewrite (sliceTo_drop_two statuses Hs). cbn [bind].
  rewrite Hunits. apply unitFileLoop_index_panic; [exact Hnot|].
  rewrite length_firstn. lia.
Qed.

Lemma systemctlUnitFileStatus_index_panic_witness :
  systemctlUnitFileStatus "nginx.service" "enabled"
    (unitFileHost ["sshd.service"; "nginx.service"; "cron.service"; "3"]
       ["enabled"; "unit"; "files"])
  = Panic "index out of range".
Proof.
  apply (systemctlUnitFileStatus_index_panic
           (unitFileHost ["sshd.service"; "nginx.service"; "cron.service"; "3"]
              ["enabled"; "unit"; "files"])
           "nginx.service" "enabled" ["sshd.service"] []).
  - cbn. lia.
  - reflexivity.
  - cbn. intros [H|[]]. discriminate H.
  - cbn. lia.
Defined.

(** ** The package manager *)

Lemma getManagerFrom_cases (e : Env) (all rest : list string) :
  (exists program,
      getManagerFrom e all rest = Ret program /\ In program rest
      /\ Contains (probeMessage e program) "not found" = false)
  \/ (getManagerFrom e all rest
      = Fatal ("No package manager found. Attempted: " +++ Sprint all)
      /\ Forall (fun q => Contains (probeMessage e q) "not found" = true) rest).
Proof.
  induction rest as [|program rest IH]; cbn [getManagerFrom].
  - right. split; [reflexivity | constructor].
  - destruct (Contains (probeMessage e program) "not found") eqn:Hc; cbn [Bool.eqb].
    + destruct IH as [(q & Hq & Hin & Hfound)|[Hfatal Hall]].
      * left. exists q. repeat split; [exact Hq | now right | exact Hfound].
      * right. split; [exact Hfatal | now constructor].
    + left. exists program. repeat split; [now left | exact Hc].
Qed.

(** X15.  The manager [getManager] returns is always one of the
    candidates it was given, and one whose probe did not fail with
    "not found". *)
Theorem getManager_returns_candidate (e : Env) (candidates : list string)
  (name : string) :
  getManager e candidates = Ret name ->
  In name candidates /\ Contains (probeMessage e name) "not found" = false.
Proof.
  unfold getManager. intros H.
  destruct (getManagerFrom_cases e candidates candidates)
    as [(q & Hq & Hin & Hfound)|[Hfatal _]].
  - rewrite Hq in H. injection H as <-. now split.
  - rewrite Hfatal in H. discriminate H.
Qed.

Lemma getManager_returns_candidate_witness :
  In "rpm" ["dpkg"; "rpm"; "pacman"]
  /\ Contains (probeMessage rpmHost "rpm") "not found" = false.
Proof.
  apply (getManager_returns_candidate rpmHost ["dpkg"; "rpm"; "pacman"] "rpm").
  reflexivity.
Defined.

(** X16.  The package-installed check never panics, and it ends the
    process exactly when every candidate manager fails its probe with
    "not found"; the diagnostic then lists the candidates and no query is
    made for the package. *)
Theorem Installed_fatal_iff_no_manager (e : Env) (keys : list string) (pkg : string) :
  (forall reason, Installed keys pkg e <> Panic reason)
  /\ ((exists diagnostic, Installed keys pkg e = Fatal diagnostic)
      <-> Forall (fun q => Contains (probeMessage e q) "not found" = true) keys)
  /\ (Forall (fun q => Contains (probeMessage e q) "not found" = true) keys ->
      Installed keys pkg e
      = Fatal ("No package manager found. Attempted: " +++ Sprint keys)).
Proof.
  unfold Installed, getManager.
  destruct (getManagerFrom_cases e keys keys)
    as [(q & Hq & Hin & Hfound)|[Hfatal Hall]].
  - rewrite Hq. cbn [bind].
    assert (Hnot : ~ Forall (fun q => Contains (probeMessage e q) "not found" = true)
                     keys).
    { intros Hall. rewrite Forall_forall in Hall. specialize (Hall q Hin). congruence. }
    split; [|split].
    + intros reason. destruct (Contains _ pkg); discriminate.
    + split; [|contradiction].
      intros [d Hd]. destruct (Contains _ pkg); discriminate Hd.
    + contradiction.
  - rewrite Hfatal. cbn [bind]. split; [|split].
    + discriminate.
    + split; [intros _; exact Hall | intros _; now eexists].
    + reflexivity.
Qed.

Lemma Installed_fatal_iff_no_manager_witness :
  Installed ["dpkg"; "rpm"; "pacman"] "vim" bareHost
  = Fatal "No package manager found. Attempted: [dpkg rpm pacman]".
Proof.
  apply (proj2 (proj2 (Installed_fatal_iff_no_manager bareHost
                         ["dpkg"; "rpm"; "pacman"] "vim"))).
  repeat constructor.
Defined.

(** X17.  With the empty package name the check passes on every host that
    has a manager, whatever the query prints: the empty string is a
    substring of every output. *)
Theorem Installed_empty_name_passes (e : Env) (keys : list string) (name : string) :
  getManager e keys = Ret name ->
  Installed keys "" e = Ret (0%Z, "").
Proof.
  intros H. unfold Installed. rewrite H. cbn [bind].
  rewrite Contains_unfold.
  now destruct (exec_Output e [name; mapGet managers name; ""]).
Qed.

Lemma Installed_empty_name_passes_witness :
  Installed ["dpkg"; "rpm"; "pacman"] "" rpmHost = Ret (0%Z, "").
Proof.
  apply (Installed_empty_name_passes rpmHost ["dpkg"; "rpm"; "pacman"] "rpm").
  reflexivity.
Defined.

(** ** The yum property lookup, record by record *)



